(** * Hyatlas Launcher: the antivirus wrapper [scripts/av_scan.sh]

    A shallow embedding of the bash script and of the fragment of bash it
    relies on ([set -euo pipefail], [$?], [exit], redirections to the error
    stream), followed by the properties of its exit status. *)

From Stdlib Require Import String Ascii ZArith List Bool Lia.
Import ListNotations.
Local Open Scope string_scope.
Local Open Scope Z_scope.

(** ** The fragment of bash used by the script *)

Module Sh.

(** What a child process leaves behind: its exit status (0..255), what it
    printed on standard output and the lines it wrote on the error stream,
    which it inherits from the script unless redirected. [report] is what
    bash itself then writes on the error stream about the end of a child it
    ran as a simple command: nothing when the child left by itself, its
    status line (such as "Killed") when a signal ended the child. *)
Record proc : Type := mkProc {
  status : Z;
  stdout : string;
  stderr : list string;
  report : list string
}.

(** The state of one bash process: the three options that
    [set -euo pipefail] turns on, the special parameter [$?], and the error
    stream (file descriptor 2), which outlives the process. *)
Record shell : Type := mkShell {
  opt_errexit : bool;
  opt_nounset : bool;
  opt_pipefail : bool;
  last_status : Z;
  fd2 : list string
}.

(** A command either lets the script go on or ends the process. *)
Inductive flow (A : Type) : Type :=
| Next (a : A)
| Exit (code : Z).
Arguments Next {A} a.
Arguments Exit {A} code.

Definition sh (A : Type) : Type := shell -> flow A * shell.

Definition ret {A} (a : A) : sh A := fun s => (Next a, s).

Definition bind {A B} (c : sh A) (k : A -> sh B) : sh B :=
  fun s =>
    match c s with
    | (Next a, s') => k a s'
    | (Exit n, s') => (Exit n, s')
    end.

Definition set_last (n : Z) (s : shell) : shell :=
  mkShell (opt_errexit s) (opt_nounset s) (opt_pipefail s) n (fd2 s).

Definition write (lines : list string) (s : shell) : shell :=
  mkShell (opt_errexit s) (opt_nounset s) (opt_pipefail s) (last_status s)
          (fd2 s ++ lines).

(** [set -euo pipefail] *)
Definition set_euo_pipefail : sh unit :=
  fun s => (Next tt, mkShell true true true 0 (fd2 s)).

(** [echo msg >&2] *)
Definition echo_err (msg : string) : sh unit :=
  fun s => (Next tt, set_last 0 (write [msg] s)).

(** [exit n] *)
Definition exit {A} (n : Z) : sh A :=
  fun s => (Exit (n mod 256), s).

(** [$?] *)
Definition last : sh Z := fun s => (Next (last_status s), s).

(** The expansion of ["$1"]. Under [nounset] an unset positional parameter
    is a fatal expansion error: bash prints a message (prefixed with the
    script name and line number) and leaves with status 1. *)
Definition positional1 (args : list string) : sh string :=
  fun s =>
    match args with
    | a :: _ => (Next a, set_last 0 s)
    | [] =>
        if opt_nounset s
        then (Exit 1, write ["$1: unbound variable"] s)
        else (Next "", set_last 0 s)
    end.

(** A simple command whose status is not tested by the script. The error
    stream receives what the child wrote and then what bash reports about
    its end. The command sets [$?]; under [errexit] a non-zero status ends
    the script with it. *)
Definition simple (p : proc) : sh unit :=
  fun s =>
    let s' :=
      set_last (status p) (write (report p) (write (stderr p) s)) in
    if opt_errexit s' && negb (status p =? 0)
    then (Exit (status p), s')
    else (Next tt, s').

(** [VAR="$(cmd)"]: the assignment has the status of the substitution, so
    [errexit] applies to it as to a simple command. Bash reports nothing
    about the end of a child it ran inside a substitution. *)
Definition subst (p : proc) : sh string :=
  fun s =>
    let s' := set_last (status p) (write (stderr p) s) in
    if opt_errexit s' && negb (status p =? 0)
    then (Exit (status p), s')
    else (Next (stdout p), s').

(** [if c; then body; fi] with the condition already evaluated; when the
    condition fails and there is no [else], the status is 0. *)
Definition if_then (c : bool) (body : sh unit) : sh unit :=
  fun s => if c then body s else (Next tt, set_last 0 s).

(** A fresh bash process running a script: default options, the error
    stream as it stands. The result is the exit status of the process and
    the error stream afterwards. Falling off the end of a script returns
    the status of the last command. *)
Definition fresh (stream : list string) : shell :=
  mkShell false false false 0 stream.

Definition bash (script : sh unit) (stream : list string)
  : Z * list string :=
  match script (fresh stream) with
  | (Exit n, s) => (n, fd2 s)
  | (Next _, s) => (last_status s, fd2 s)
  end.

End Sh.

Import Sh.

Declare Scope sh_scope.
Delimit Scope sh_scope with sh.
Notation "x <- c ;; k" := (bind c (fun x => k))
  (at level 61, c at next level, right associativity) : sh_scope.
Notation "c ;; k" := (bind c (fun _ => k))
  (at level 61, right associativity) : sh_scope.

(** ** The host *)

(** Everything the script asks its environment. [defender_flags] is the
    verdict Microsoft Defender records after a scan was triggered (what
    [Get-MpThreatDetection] would show); the script never reads it. *)
Record host : Type := mkHost {
  test_f : string -> bool;              (* [[ -f path ]] *)
  uname_s : proc;                       (* uname -s *)
  command_v : string -> bool;           (* command -v name >/dev/null 2>&1 *)
  clamscan : string -> proc;            (* clamscan --no-summary path *)
  powershell_exe : string -> proc;      (* powershell.exe -NoProfile -Command c >/dev/null *)
  defender_flags : string -> bool
}.

(** ** The script *)

Section Script.

Variable h : host.

Local Open Scope sh_scope.

(** [[ "${OS}" == "Linux" || "${OS}" == "Darwin" ]] *)
Definition is_posix (OS : string) : bool :=
  String.eqb OS "Linux" || String.eqb OS "Darwin".

(** [[ "${OS}" == "MINGW"* || "${OS}" == "CYGWIN"* || "${OS}" == "MSYS"* ]] *)
Definition is_windows (OS : string) : bool :=
  String.prefix "MINGW" OS || String.prefix "CYGWIN" OS
  || String.prefix "MSYS" OS.

(** Linux / macOS: ClamAV via clamscan. *)
Definition posix_block (ARCHIVE : string) : sh unit :=
  if_then (negb (command_v h "clamscan"))
    (echo_err "[av_scan] clamscan not found – skipping scan" ;;
     exit 0) ;;
  simple (clamscan h ARCHIVE) ;;
  EXIT_CODE <- last ;;
  if EXIT_CODE =? 0 then exit 0
  else if EXIT_CODE =? 1 then exit 1
  else exit 2.

(** The command line handed to PowerShell. *)
Definition start_mpscan (ARCHIVE : string) : string :=
  "Start-MpScan -ScanPath '" ++ ARCHIVE ++ "' -ScanType CustomScan".

(** Windows: Microsoft Defender via PowerShell. *)
Definition windows_block (ARCHIVE : string) : sh unit :=
  simple (powershell_exe h (start_mpscan ARCHIVE)) ;;
  exit 0.

Definition unsupported_block (OS : string) : sh unit :=
  echo_err ("[av_scan] unsupported OS: " ++ OS) ;;
  exit 2.

(** The two [if] blocks and the trailing lines that follow
    [OS="$(uname -s)"]. *)
Definition platform_dispatch (ARCHIVE OS : string) : sh unit :=
  if_then (is_posix OS) (posix_block ARCHIVE) ;;
  if_then (is_windows OS) (windows_block ARCHIVE) ;;
  unsupported_block OS.

(** The script below its [set] line. *)
Definition av_scan_body (args : list string) : sh unit :=
  ARCHIVE <- positional1 args ;;
  if_then (String.eqb ARCHIVE "" || negb (test_f h ARCHIVE))
    (echo_err ("[av_scan] invalid path: " ++ ARCHIVE) ;;
     exit 2) ;;
  OS <- subst (uname_s h) ;;
  platform_dispatch ARCHIVE OS.

Definition av_scan (args : list string) : sh unit :=
  set_euo_pipefail ;;
  av_scan_body args.

End Script.

Arguments is_posix OS : simpl never.
Arguments is_windows OS : simpl never.
Arguments start_mpscan ARCHIVE : simpl never.

(** One invocation [./av_scan.sh args] on host [h]. *)
Definition invoke (h : host) (args : list string) (stream : list string)
  : Z * list string :=
  bash (av_scan h args) stream.

Definition exit_code (h : host) (args : list string) : Z :=
  fst (invoke h args []).

(** ** The closed classification the specification describes *)

Inductive platform : Type := POSIX | WindowsLike | Unsupported.

(** Follows the specification's words: a closed tagged variant resolved once
    from the host identifier, two identifiers for the POSIX family and three
    prefixes for the Windows family. *)
Definition platform_of (OS : string) : platform :=
  if existsb (String.eqb OS) ["Linux"; "Darwin"] then POSIX
  else if existsb (fun p => String.prefix p OS) ["MINGW"; "CYGWIN"; "MSYS"]
  then WindowsLike
  else Unsupported.

Definition dispatch_by_platform (h : host) (ARCHIVE OS : string) : sh unit :=
  match platform_of OS with
  | POSIX => posix_block h ARCHIVE
  | WindowsLike => windows_block h ARCHIVE
  | Unsupported => unsupported_block OS
  end.

(** ** Concrete hosts *)

Definition archive : string := "/tmp/archive.zip".

Definition only_archive (p : string) : bool := String.eqb p archive.

Definition quiet (st : Z) : proc := mkProc st "" [] [].

(** A Linux machine; [found] tells whether clamscan is on the search path and
    [st] is the status clamscan leaves with. *)
Definition linux_host (found : bool) (st : Z) : host :=
  mkHost only_archive (mkProc 0 "Linux" [] []) (fun _ => found)
         (fun _ => quiet st) (fun _ => quiet 127) (fun _ => false).

(** A Git-for-Windows shell; [st] is the status of the PowerShell launch and
    [flagged] what Defender records about the file afterwards. *)
Definition windows_host (st : Z) (flagged : bool) : host :=
  mkHost only_archive (mkProc 0 "MINGW64_NT-10.0-19045" [] []) (fun _ => false)
         (fun _ => quiet 127) (fun _ => quiet st) (fun _ => flagged).

Definition freebsd_host : host :=
  mkHost only_archive (mkProc 0 "FreeBSD" [] []) (fun _ => false)
         (fun _ => quiet 127) (fun _ => quiet 127) (fun _ => false).

(** ** Running the script *)

Ltac run_script :=
  unfold invoke, exit_code, bash, av_scan, av_scan_body, platform_dispatch,
    dispatch_by_platform, posix_block, windows_block, unsupported_block,
    bind, set_euo_pipefail, positional1, if_then, subst, simple, echo_err,
    exit, last, ret, fresh, set_last, write;
  cbn.

(** Use a fact about the host to resolve the next test of the script. *)
Ltac branch H := rewrite H; cbn.

Lemma validation_passes (h : host) (p : string) :
  p <> "" -> test_f h p = true ->
  String.eqb p "" || negb (test_f h p) = false.
Proof.
  intros Hne Hf. rewrite Hf. apply String.eqb_neq in Hne. now rewrite Hne.
Qed.

Lemma validation_fails (h : host) (p : string) :
  p = "" \/ test_f h p = false ->
  String.eqb p "" || negb (test_f h p) = true.
Proof.
  intros [-> | Hf]; [reflexivity |].
  rewrite Hf. apply orb_true_r.
Qed.

Lemma is_posix_spec (OS : string) :
  is_posix OS = true <-> OS = "Linux" \/ OS = "Darwin".
Proof.
  unfold is_posix. rewrite orb_true_iff, !String.eqb_eq. tauto.
Qed.

Lemma prefix_app (p rest : string) : String.prefix p (p ++ rest) = true.
Proof.
  induction p as [| c p IH]; simpl.
  - now destruct rest.
  - destruct (ascii_dec c c) as [_ | Hc]; [exact IH | now elim Hc].
Qed.

Lemma prefix_split (p s : string) :
  String.prefix p s = true -> exists rest, s = p ++ rest.
Proof.
  revert s. induction p as [| c p IH]; intros s Hp.
  - now exists s.
  - destruct s as [| d s]; simpl in Hp; [discriminate |].
    destruct (ascii_dec c d) as [-> | _]; [| discriminate].
    destruct (IH s Hp) as [rest ->]. now exists rest.
Qed.

Lemma prefix_iff (p s : string) :
  String.prefix p s = true <-> exists rest, s = p ++ rest.
Proof.
  split; [apply prefix_split |].
  intros [rest ->]. apply prefix_app.
Qed.

Lemma is_windows_spec (OS : string) :
  is_windows OS = true <->
  exists rest,
    OS = "MINGW" ++ rest \/ OS = "CYGWIN" ++ rest \/ OS = "MSYS" ++ rest.
Proof.
  unfold is_windows. rewrite !orb_true_iff, !prefix_iff. split.
  - intros [[[r Hr] | [r Hr]] | [r Hr]]; exists r; tauto.
  - intros [r [Hr | [Hr | Hr]]]; eauto.
Qed.

(** The two guards of the script never hold together. *)
Lemma posix_not_windows (OS : string) :
  is_posix OS = true -> is_windows OS = false.
Proof.
  rewrite is_posix_spec. now intros [-> | ->].
Qed.

(** ** Closed forms of one invocation, path by path *)

Section Paths.

Variables (h : host) (p : string) (rest stream : list string).

(** No argument at all: [$1] is unset and [nounset] ends the script at the
    assignment, before the validation test is reached. *)
Lemma invoke_no_argument :
  invoke h [] stream = (1, (stream ++ ["$1: unbound variable"])%list).
Proof. reflexivity. Qed.

Lemma invoke_invalid_path :
  p = "" \/ test_f h p = false ->
  invoke h (p :: rest) stream
  = (2, (stream ++ [("[av_scan] invalid path: " ++ p)%string])%list).
Proof.
  intros Hbad. run_script. branch (validation_fails h p Hbad).
  reflexivity.
Qed.

Hypothesis Hne : p <> "".
Hypothesis Hfile : test_f h p = true.

Lemma invoke_uname_fails :
  status (uname_s h) <> 0 ->
  invoke h (p :: rest) stream
  = (status (uname_s h), (stream ++ stderr (uname_s h))%list).
Proof.
  intros Hu. run_script. branch (validation_passes h p Hne Hfile).
  apply Z.eqb_neq in Hu. branch Hu. reflexivity.
Qed.

Hypothesis Huname : status (uname_s h) = 0.

Lemma invoke_posix_no_scanner :
  is_posix (stdout (uname_s h)) = true ->
  command_v h "clamscan" = false ->
  invoke h (p :: rest) stream
  = (0, ((stream ++ stderr (uname_s h))
         ++ ["[av_scan] clamscan not found – skipping scan"])%list).
Proof.
  intros Hos Hcmd. run_script.
  branch (validation_passes h p Hne Hfile). branch Huname. branch Hos.
  branch Hcmd. reflexivity.
Qed.

(** With clamscan on the search path the wrapper leaves with the very
    status of the scanner, whatever it is: a non-zero status ends the script
    at the clamscan line under [errexit], and status 0 is mapped to 0. *)
Lemma invoke_posix_scanner :
  is_posix (stdout (uname_s h)) = true ->
  command_v h "clamscan" = true ->
  invoke h (p :: rest) stream
  = (status (clamscan h p),
     (((stream ++ stderr (uname_s h)) ++ stderr (clamscan h p))
      ++ report (clamscan h p))%list).
Proof.
  intros Hos Hcmd. run_script.
  branch (validation_passes h p Hne Hfile). branch Huname. branch Hos.
  branch Hcmd.
  destruct (status (clamscan h p) =? 0) eqn:E; cbn; [| reflexivity].
  rewrite E. apply Z.eqb_eq in E. now rewrite E.
Qed.

Lemma invoke_windows :
  is_posix (stdout (uname_s h)) = false ->
  is_windows (stdout (uname_s h)) = true ->
  invoke h (p :: rest) stream
  = (status (powershell_exe h (start_mpscan p)),
     (((stream ++ stderr (uname_s h))
       ++ stderr (powershell_exe h (start_mpscan p)))
      ++ report (powershell_exe h (start_mpscan p)))%list).
Proof.
  intros Hos Hwin. run_script.
  branch (validation_passes h p Hne Hfile). branch Huname. branch Hos.
  branch Hwin.
  destruct (status (powershell_exe h (start_mpscan p)) =? 0) eqn:E; cbn;
    [| reflexivity].
  apply Z.eqb_eq in E. now rewrite E.
Qed.

Lemma invoke_unsupported :
  is_posix (stdout (uname_s h)) = false ->
  is_windows (stdout (uname_s h)) = false ->
  invoke h (p :: rest) stream
  = (2, ((stream ++ stderr (uname_s h))
         ++ [("[av_scan] unsupported OS: " ++ stdout (uname_s h))%string])%list).
Proof.
  intros Hos Hwin. run_script.
  branch (validation_passes h p Hne Hfile). branch Huname. branch Hos.
  branch Hwin. reflexivity.
Qed.

End Paths.

(** ** Vocabulary of the specification *)

(** The path names an existing regular file (and is not the empty word). *)
Definition regular_file (h : host) (p : string) : Prop :=
  p <> "" /\ test_f h p = true.

(** [uname -s] succeeds on [h] and prints [OS]. *)
Definition host_identifier (h : host) (OS : string) : Prop :=
  status (uname_s h) = 0 /\ stdout (uname_s h) = OS.

Definition posix_family (OS : string) : Prop :=
  OS = "Linux" \/ OS = "Darwin".

Definition windows_family (OS : string) : Prop :=
  exists rest,
    OS = "MINGW" ++ rest \/ OS = "CYGWIN" ++ rest \/ OS = "MSYS" ++ rest.

(** The same host with another Defender verdict. *)
Definition set_defender_flags (verdict : string -> bool) (h : host) : host :=
  mkHost (test_f h) (uname_s h) (command_v h) (clamscan h)
         (powershell_exe h) verdict.

Lemma not_posix_family (OS : string) :
  ~ posix_family OS -> is_posix OS = false.
Proof.
  intros Hn. destruct (is_posix OS) eqn:E; [| reflexivity].
  elim Hn. now apply is_posix_spec.
Qed.

Lemma not_windows_family (OS : string) :
  ~ windows_family OS -> is_windows OS = false.
Proof.
  intros Hn. destruct (is_windows OS) eqn:E; [| reflexivity].
  elim Hn. now apply is_windows_spec.
Qed.

Lemma windows_not_posix (OS : string) :
  is_windows OS = true -> is_posix OS = false.
Proof.
  intros Hw. destruct (is_posix OS) eqn:E; [| reflexivity].
  rewrite (posix_not_windows OS E) in Hw. discriminate.
Qed.

Lemma invalid_or_regular (h : host) (p : string) :
  (p = "" \/ test_f h p = false) \/ regular_file h p.
Proof.
  unfold regular_file.
  destruct (string_dec p "") as [-> | Hne]; [now left; left |].
  destruct (test_f h p); [now right | now left; right].
Qed.

(** ** What one invocation leaves behind *)

(** An invocation reads nothing of the error stream and only appends to it:
    the exit status and the lines written are the same whatever the stream
    held before. *)
Lemma invoke_frame (h : host) (args stream : list string) :
  invoke h args stream
  = (exit_code h args, (stream ++ snd (invoke h args []))%list).
Proof.
  unfold exit_code.
  destruct args as [| p rest]; [reflexivity |].
  destruct (invalid_or_regular h p) as [Hbad | [Hne Hfile]].
  { now rewrite !(invoke_invalid_path h p rest _ Hbad). }
  destruct (Z.eq_dec (status (uname_s h)) 0) as [Hu | Hu].
  2: { now rewrite !(invoke_uname_fails h p rest _ Hne Hfile Hu). }
  destruct (is_posix (stdout (uname_s h))) eqn:Hos.
  { destruct (command_v h "clamscan") eqn:Hcmd.
    - rewrite !(invoke_posix_scanner h p rest _ Hne Hfile Hu Hos Hcmd).
      cbn. now rewrite !app_assoc.
    - rewrite !(invoke_posix_no_scanner h p rest _ Hne Hfile Hu Hos Hcmd).
      cbn. now rewrite app_assoc. }
  destruct (is_windows (stdout (uname_s h))) eqn:Hwin.
  - rewrite !(invoke_windows h p rest _ Hne Hfile Hu Hos Hwin).
    cbn. now rewrite !app_assoc.
  - rewrite !(invoke_unsupported h p rest _ Hne Hfile Hu Hos Hwin).
    cbn. now rewrite app_assoc.
Qed.

Lemma exit_code_any_stream (h : host) (args stream : list string) :
  fst (invoke h args stream) = exit_code h args.
Proof. now rewrite invoke_frame. Qed.

(** ** The mapping the script spells out, and what [set -e] makes of it *)

(** Run without its [set] line, the script maps the scanner status exactly as
    its three-way test reads. *)
Lemma body_maps_scanner_status (h : host) (p : string) (rest stream : list string) :
  regular_file h p ->
  is_posix (stdout (uname_s h)) = true ->
  command_v h "clamscan" = true ->
  fst (bash (av_scan_body h (p :: rest)) stream)
  = if status (clamscan h p) =? 0 then 0
    else if status (clamscan h p) =? 1 then 1 else 2.
Proof.
  intros [Hne Hfile] Hos Hcmd. run_script.
  branch (validation_passes h p Hne Hfile). branch Hos. branch Hcmd.
  destruct (status (clamscan h p) =? 0); [reflexivity |].
  destruct (status (clamscan h p) =? 1); reflexivity.
Qed.

(** With the [set] line, the wrapper leaves with the scanner's own status. *)
Lemma scanner_status_propagates (h : host) (p : string) (rest : list string) (OS : string) :
  regular_file h p -> host_identifier h OS -> posix_family OS ->
  command_v h "clamscan" = true ->
  exit_code h (p :: rest) = status (clamscan h p).
Proof.
  intros [Hne Hfile] [Hu HOS] Hfam Hcmd. unfold exit_code.
  apply is_posix_spec in Hfam. rewrite <- HOS in Hfam.
  now rewrite (invoke_posix_scanner h p rest [] Hne Hfile Hu Hfam Hcmd).
Qed.

(** Likewise on Windows: the status of the PowerShell launch is the status
    of the wrapper. *)
Lemma launch_status_propagates (h : host) (p : string) (rest : list string) (OS : string) :
  regular_file h p -> host_identifier h OS -> windows_family OS ->
  exit_code h (p :: rest) = status (powershell_exe h (start_mpscan p)).
Proof.
  intros [Hne Hfile] [Hu HOS] Hfam. unfold exit_code.
  apply is_windows_spec in Hfam. rewrite <- HOS in Hfam.
  now rewrite (invoke_windows h p rest [] Hne Hfile Hu
                 (windows_not_posix _ Hfam) Hfam).
Qed.

(** ** The cascade of tests against the closed classification *)

Lemma platform_of_guards (OS : string) :
  platform_of OS
  = if is_posix OS then POSIX
    else if is_windows OS then WindowsLike else Unsupported.
Proof.
  unfold platform_of, is_posix, is_windows. cbn [existsb].
  now rewrite !orb_false_r, orb_assoc.
Qed.

(** Every path through the POSIX block ends the script. *)
Lemma posix_block_exits (h : host) (ARCHIVE : string) (s : shell) :
  exists n s', posix_block h ARCHIVE s = (Exit n, s').
Proof.
  unfold posix_block, bind, if_then, simple, echo_err, exit, last. cbn.
  destruct (command_v h "clamscan"); cbn; [| eauto].
  destruct (opt_errexit s && negb (status (clamscan h ARCHIVE) =? 0)); cbn;
    [eauto |].
  destruct (status (clamscan h ARCHIVE) =? 0); [eauto |].
  destruct (status (clamscan h ARCHIVE) =? 1); eauto.
Qed.

(** What precedes the Windows block leaves nothing behind that it reads. *)
Lemma windows_block_after_test (h : host) (ARCHIVE : string) (s : shell) :
  windows_block h ARCHIVE (set_last 0 s) = windows_block h ARCHIVE s.
Proof. reflexivity. Qed.

Lemma unsupported_block_after_tests (OS : string) (s : shell) :
  unsupported_block OS (set_last 0 (set_last 0 s)) = unsupported_block OS s.
Proof. reflexivity. Qed.

Lemma dispatch_refines (h : host) (ARCHIVE OS : string) (s : shell) :
  platform_dispatch h ARCHIVE OS s = dispatch_by_platform h ARCHIVE OS s.
Proof.
  unfold dispatch_by_platform. rewrite platform_of_guards.
  unfold platform_dispatch, bind, if_then.
  destruct (is_posix OS) eqn:Hos.
  - destruct (posix_block_exits h ARCHIVE s) as (n & s' & ->). reflexivity.
  - destruct (is_windows OS) eqn:Hwin.
    + rewrite windows_block_after_test.
      unfold windows_block, bind, exit.
      now destruct (simple _ s) as [[[] | n] s'].
    + apply unsupported_block_after_tests.
Qed.

(** * Properties of the wrapper's exit status *)

(** C1. The script spells out the three-way mapping of the scanner status
    (0 to 0, 1 to 1, anything else to 2), but on a Linux host with clamscan
    on the search path and a scanner leaving with status 3, the wrapper
    leaves with 3 and not with 2: under [set -e] the clamscan line ends the
    script before the mapping is read. The same script without its [set]
    line answers 2. *)
Theorem errexit_preempts_scanner_mapping :
  invoke (linux_host true 3) [archive] [] = (3, [])
  /\ bash (av_scan_body (linux_host true 3) [archive]) [] = (2, []).
Proof. split; reflexivity. Qed.

(** C2. An invocation without any argument leaves with status 1, not 2:
    under [set -u] the expansion of [$1] ends the script before the
    validation test, on every host; bash's own message is all the error
    stream receives. The same script without its [set] line reaches the
    test and answers 2 with the invalid-path diagnostic. *)
Theorem missing_argument_exits_1 :
  forall (h : host) (stream : list string),
    invoke h [] stream = (1, (stream ++ ["$1: unbound variable"])%list)
    /\ bash (av_scan_body h []) stream
       = (2, (stream ++ ["[av_scan] invalid path: "])%list).
Proof. intros h stream. split; reflexivity. Qed.

(** C3. Permissive fallback: on a host whose identifier is Linux or Darwin
    and where clamscan is not on the search path, the wrapper leaves with
    status 0 for every existing regular file. *)
Theorem permissive_fallback
  (h : host) (p : string) (rest : list string) (OS : string) :
  regular_file h p -> host_identifier h OS -> posix_family OS ->
  command_v h "clamscan" = false ->
  exit_code h (p :: rest) = 0.
Proof.
  intros [Hne Hfile] [Hu HOS] Hfam Hcmd. unfold exit_code.
  apply is_posix_spec in Hfam. rewrite <- HOS in Hfam.
  now rewrite (invoke_posix_no_scanner h p rest [] Hne Hfile Hu Hfam Hcmd).
Qed.

Lemma permissive_fallback_witness :
  regular_file (linux_host false 0) archive
  /\ host_identifier (linux_host false 0) "Linux"
  /\ posix_family "Linux"
  /\ command_v (linux_host false 0) "clamscan" = false
  /\ exit_code (linux_host false 0) [archive] = 0.
Proof.
  assert (Hf : regular_file (linux_host false 0) archive)
    by (split; [discriminate | reflexivity]).
  assert (Hi : host_identifier (linux_host false 0) "Linux")
    by (split; reflexivity).
  assert (Hp : posix_family "Linux") by (left; reflexivity).
  split; [exact Hf |]. split; [exact Hi |]. split; [exact Hp |].
  split; [reflexivity |].
  exact (permissive_fallback (linux_host false 0) archive [] "Linux"
           Hf Hi Hp eq_refl).
Defined.

(** C4. On a Windows-family host, when the PowerShell launch returns status
    0 the wrapper leaves with status 0, whatever verdict Defender records
    about the file: the script does not consult it. *)
Theorem windows_launch_success_is_clean
  (h : host) (p : string) (rest : list string) (OS : string) :
  regular_file h p -> host_identifier h OS -> windows_family OS ->
  status (powershell_exe h (start_mpscan p)) = 0 ->
  forall verdict : string -> bool,
    exit_code (set_defender_flags verdict h) (p :: rest) = 0.
Proof.
  intros Hf Hi Hfam Hps verdict.
  now rewrite (launch_status_propagates (set_defender_flags verdict h)
                 p rest OS Hf Hi Hfam).
Qed.

Lemma windows_launch_success_is_clean_witness :
  regular_file (windows_host 0 false) archive
  /\ host_identifier (windows_host 0 false) "MINGW64_NT-10.0-19045"
  /\ windows_family "MINGW64_NT-10.0-19045"
  /\ status (powershell_exe (windows_host 0 false) (start_mpscan archive)) = 0
  /\ exit_code (set_defender_flags (fun _ => true) (windows_host 0 false))
       [archive] = 0.
Proof.
  assert (Hf : regular_file (windows_host 0 false) archive)
    by (split; [discriminate | reflexivity]).
  assert (Hi : host_identifier (windows_host 0 false) "MINGW64_NT-10.0-19045")
    by (split; reflexivity).
  assert (Hw : windows_family "MINGW64_NT-10.0-19045")
    by (exists "64_NT-10.0-19045"; left; reflexivity).
  split; [exact Hf |]. split; [exact Hi |]. split; [exact Hw |].
  split; [reflexivity |].
  exact (windows_launch_success_is_clean (windows_host 0 false) archive []
           "MINGW64_NT-10.0-19045" Hf Hi Hw eq_refl (fun _ => true)).
Defined.

(** C5. On a host whose identifier is neither Linux nor Darwin and does not
    start with MINGW, CYGWIN or MSYS, the wrapper leaves with status 2 for
    every path it is given, valid or not; when the path names a regular file
    the last line on the error stream is the unsupported-OS diagnostic, which
    carries the identifier. *)
Theorem unsupported_os_is_error
  (h : host) (p : string) (rest stream : list string) (OS : string) :
  host_identifier h OS -> ~ posix_family OS -> ~ windows_family OS ->
  fst (invoke h (p :: rest) stream) = 2
  /\ (regular_file h p ->
      snd (invoke h (p :: rest) stream)
      = ((stream ++ stderr (uname_s h))
         ++ [("[av_scan] unsupported OS: " ++ OS)%string])%list).
Proof.
  intros [Hu HOS] Hnp Hnw.
  apply not_posix_family in Hnp. apply not_windows_family in Hnw.
  rewrite <- HOS in Hnp, Hnw |- *.
  destruct (invalid_or_regular h p) as [Hbad | [Hne Hfile]].
  - rewrite (invoke_invalid_path h p rest stream Hbad). split; [reflexivity |].
    intros [Hne Hfile]. destruct Hbad as [-> | Hbad]; [now elim Hne |].
    rewrite Hfile in Hbad. discriminate.
  - rewrite (invoke_unsupported h p rest stream Hne Hfile Hu Hnp Hnw).
    split; [reflexivity | intros _; reflexivity].
Qed.

Lemma unsupported_os_is_error_witness :
  host_identifier freebsd_host "FreeBSD"
  /\ fst (invoke freebsd_host [archive] []) = 2
  /\ snd (invoke freebsd_host [archive] [])
     = ["[av_scan] unsupported OS: FreeBSD"]
  /\ fst (invoke freebsd_host ["/tmp/missing.zip"] []) = 2.
Proof.
  assert (Hi : host_identifier freebsd_host "FreeBSD") by (split; reflexivity).
  assert (Hp : ~ posix_family "FreeBSD")
    by (intros [H | H]; discriminate H).
  assert (Hw : ~ windows_family "FreeBSD")
    by (intros [r [H | [H | H]]]; discriminate H).
  assert (Hf : regular_file freebsd_host archive)
    by (split; [discriminate | reflexivity]).
  split; [exact Hi |]. split; [| split].
  - exact (proj1 (unsupported_os_is_error freebsd_host archive [] []
                    "FreeBSD" Hi Hp Hw)).
  - exact (proj2 (unsupported_os_is_error freebsd_host archive [] []
                    "FreeBSD" Hi Hp Hw) Hf).
  - exact (proj1 (unsupported_os_is_error freebsd_host "/tmp/missing.zip" [] []
                    "FreeBSD" Hi Hp Hw)).
Defined.

(** C6. The exit status is not confined to 0, 1 and 2: on a Linux host with
    clamscan on the search path, a scanner killed by a signal (status 137)
    makes the wrapper leave with 137; the crash is not folded into 2. *)
Theorem scanner_crash_status_escapes :
  exit_code (linux_host true 137) [archive] = 137
  /\ ~ In (exit_code (linux_host true 137) [archive]) [0; 1; 2].
Proof.
  split; [reflexivity |].
  cbn. intros [H | [H | [H | []]]]; discriminate H.
Qed.

(** C7. A failing scanner invocation does not come out as status 2 with a
    diagnostic line: on a Windows-family host where the PowerShell launch
    fails with status 1 and prints nothing, the wrapper leaves with status 1
    and the error stream stays empty. *)
Theorem launch_failure_not_reported_as_2 :
  invoke (windows_host 1 false) [archive] [] = (1, []).
Proof. reflexivity. Qed.

(** C8. Platform dispatch is a closed, mutually exclusive classification of
    the host identifier: the identifiers classified POSIX are exactly Linux
    and Darwin, those classified Windows-like are exactly the ones starting
    with MINGW, CYGWIN or MSYS, all others are unsupported; the two tests of
    the script never hold together; the script's cascade of tests runs
    exactly the one block the classification selects; Linux and Darwin
    behave alike, and so do the three Windows prefixes. *)
Theorem platform_dispatch_is_closed_classification :
  (forall OS, platform_of OS = POSIX <-> posix_family OS)
  /\ (forall OS, platform_of OS = WindowsLike <-> windows_family OS)
  /\ (forall OS, platform_of OS = Unsupported
                 <-> ~ posix_family OS /\ ~ windows_family OS)
  /\ (forall OS, is_posix OS && is_windows OS = false)
  /\ (forall h ARCHIVE OS s,
        platform_dispatch h ARCHIVE OS s = dispatch_by_platform h ARCHIVE OS s)
  /\ (forall h ARCHIVE s,
        platform_dispatch h ARCHIVE "Linux" s = posix_block h ARCHIVE s
        /\ platform_dispatch h ARCHIVE "Darwin" s = posix_block h ARCHIVE s)
  /\ (forall h ARCHIVE rest s,
        platform_dispatch h ARCHIVE ("MINGW" ++ rest) s
        = windows_block h ARCHIVE s
        /\ platform_dispatch h ARCHIVE ("CYGWIN" ++ rest) s
           = windows_block h ARCHIVE s
        /\ platform_dispatch h ARCHIVE ("MSYS" ++ rest) s
           = windows_block h ARCHIVE s).
Proof.
  assert (Hexcl : forall OS, is_posix OS && is_windows OS = false).
  { intros OS. destruct (is_posix OS) eqn:E; [| reflexivity].
    now rewrite (posix_not_windows OS E). }
  split; [| split; [| split; [| split; [exact Hexcl | split; [| split]]]]].
  - intros OS. unfold posix_family.
    rewrite platform_of_guards, <- is_posix_spec.
    destruct (is_posix OS); [tauto |].
    split; [| discriminate]. destruct (is_windows OS); discriminate.
  - intros OS. unfold windows_family.
    rewrite platform_of_guards, <- is_windows_spec.
    specialize (Hexcl OS).
    destruct (is_posix OS); destruct (is_windows OS);
      try discriminate Hexcl; split; (reflexivity || discriminate).
  - intros OS. unfold posix_family, windows_family.
    rewrite platform_of_guards, <- is_posix_spec, <- is_windows_spec.
    destruct (is_posix OS); destruct (is_windows OS); split;
      solve [ discriminate
            | intros [H1 H2]; (now elim H1) || (now elim H2)
            | intros _; split; discriminate
            | intros _; reflexivity ].
  - apply dispatch_refines.
  - intros h ARCHIVE s. rewrite !dispatch_refines. split; reflexivity.
  - intros h ARCHIVE rest s. rewrite !dispatch_refines.
    unfold dispatch_by_platform. rewrite !platform_of_guards.
    assert (Hm : is_windows ("MINGW" ++ rest) = true)
      by (apply is_windows_spec; exists rest; tauto).
    assert (Hc : is_windows ("CYGWIN" ++ rest) = true)
      by (apply is_windows_spec; exists rest; tauto).
    assert (Hs : is_windows ("MSYS" ++ rest) = true)
      by (apply is_windows_spec; exists rest; tauto).
    rewrite Hm, Hc, Hs.
    rewrite (windows_not_posix _ Hm), (windows_not_posix _ Hc),
      (windows_not_posix _ Hs).
    repeat split; reflexivity.
Qed.

Lemma platform_dispatch_is_closed_classification_witness :
  posix_family "Darwin" /\ platform_of "Darwin" = POSIX.
Proof.
  assert (Hp : posix_family "Darwin") by (right; reflexivity).
  split; [exact Hp |].
  exact (proj2 (proj1 platform_dispatch_is_closed_classification "Darwin") Hp).
Defined.

(** What the claim lists as stable between two invocations on the path
    [$1]: the file is a regular file or not, what [uname -s] answers,
    whether clamscan is on the search path, and the exit status of the
    scanner (clamscan, or the PowerShell launch) on that path. Everything
    else may differ: other files and commands, what the children print, the
    Defender verdict. Without an argument nothing of the host is looked at. *)
Definition same_scan_conditions (h1 h2 : host) (args : list string) : Prop :=
  match args with
  | [] => True
  | p :: _ =>
      test_f h1 p = test_f h2 p
      /\ status (uname_s h1) = status (uname_s h2)
      /\ stdout (uname_s h1) = stdout (uname_s h2)
      /\ command_v h1 "clamscan" = command_v h2 "clamscan"
      /\ status (clamscan h1 p) = status (clamscan h2 p)
      /\ status (powershell_exe h1 (start_mpscan p))
         = status (powershell_exe h2 (start_mpscan p))
  end.

(** The exit status of a script started in the shell [s], which need not be
    fresh: its options, its [$?] and its error stream are whatever came
    before. *)
Definition outcome (r : flow unit * shell) : Z :=
  match r with
  | (Exit n, _) => n
  | (Next _, s) => last_status s
  end.

(** The exit status as a function of the scan conditions alone. *)
Definition expected_exit (file_ok : bool) (uname_status : Z) (OS : string)
  (found : bool) (scan launch : Z) : Z :=
  if negb file_ok then 2
  else if negb (uname_status =? 0) then uname_status
  else if is_posix OS then (if found then scan else 0)
  else if is_windows OS then launch
  else 2.

Lemma exit_code_closed_form (h : host) (p : string) (rest : list string) :
  exit_code h (p :: rest)
  = expected_exit (negb (String.eqb p "") && test_f h p)
      (status (uname_s h)) (stdout (uname_s h)) (command_v h "clamscan")
      (status (clamscan h p)) (status (powershell_exe h (start_mpscan p))).
Proof.
  unfold exit_code, expected_exit.
  destruct (invalid_or_regular h p) as [Hbad | [Hne Hfile]].
  { rewrite (invoke_invalid_path h p rest _ Hbad).
    destruct Hbad as [-> | Hf]; [reflexivity |].
    rewrite Hf. now rewrite andb_false_r. }
  rewrite Hfile. apply String.eqb_neq in Hne as Hne'. rewrite Hne'. cbn [negb andb].
  destruct (Z.eq_dec (status (uname_s h)) 0) as [Hu | Hu].
  2: { rewrite (invoke_uname_fails h p rest _ Hne Hfile Hu).
       apply Z.eqb_neq in Hu. now rewrite Hu. }
  rewrite Hu. cbn [Z.eqb negb].
  destruct (is_posix (stdout (uname_s h))) eqn:Hos.
  { destruct (command_v h "clamscan") eqn:Hcmd.
    - now rewrite (invoke_posix_scanner h p rest _ Hne Hfile Hu Hos Hcmd).
    - now rewrite (invoke_posix_no_scanner h p rest _ Hne Hfile Hu Hos Hcmd). }
  destruct (is_windows (stdout (uname_s h))) eqn:Hwin.
  - now rewrite (invoke_windows h p rest _ Hne Hfile Hu Hos Hwin).
  - now rewrite (invoke_unsupported h p rest _ Hne Hfile Hu Hos Hwin).
Qed.

(** The first line of the script makes what follows independent of the
    options and of the [$?] the shell started with. *)
Lemma outcome_from_any_shell (h : host) (args : list string) (s : shell) :
  outcome (av_scan h args s) = exit_code h args.
Proof.
  rewrite <- (exit_code_any_stream h args (fd2 s)).
  unfold invoke, bash, fresh, av_scan, bind, set_euo_pipefail. cbn.
  now destruct (av_scan_body h args _) as [[[] | n] s'].
Qed.

(** C9. The exit status of the wrapper depends on nothing but the scan
    conditions: two invocations with the same arguments leave with the same
    status as soon as the file, the answer of uname, the presence of
    clamscan and the scanner's exit status on the path are the same both
    times. Nothing else carries over: the second invocation may find every
    other part of the host changed, what the children print changed, and a
    shell with other options, another [$?] and an error stream that holds
    what the first invocation wrote. *)
Theorem exit_status_depends_only_on_scan_conditions
  (h1 h2 : host) (args : list string) :
  same_scan_conditions h1 h2 args ->
  (forall s1 s2 : shell,
     outcome (av_scan h2 args s2) = outcome (av_scan h1 args s1))
  /\ (forall stream : list string,
        fst (invoke h2 args (snd (invoke h1 args stream)))
        = fst (invoke h1 args stream)).
Proof.
  intros Hsame.
  assert (Hexit : exit_code h2 args = exit_code h1 args).
  { destruct args as [| p rest]; [reflexivity |].
    destruct Hsame as (Hf & Hus & Huo & Hcmd & Hscan & Hps).
    rewrite !exit_code_closed_form.
    now rewrite Hf, Hus, Huo, Hcmd, Hscan, Hps. }
  split.
  - intros s1 s2. now rewrite !outcome_from_any_shell.
  - intros stream. now rewrite !exit_code_any_stream.
Qed.

(** Another Linux machine: more files, another search path, a scanner that
    talks, a Defender verdict; clamscan finds the same threat. *)
Definition other_linux_host : host :=
  mkHost (fun p => String.eqb p archive || String.eqb p "/etc/hostname")
         (mkProc 0 "Linux" ["uname: warning"] [])
         (fun name => String.eqb name "clamscan")
         (fun p => mkProc 1 "" [(p ++ ": Eicar-Signature FOUND")%string] [])
         (fun _ => mkProc 127 "" ["powershell.exe: command not found"] [])
         (fun _ => true).

Lemma exit_status_depends_only_on_scan_conditions_witness :
  same_scan_conditions (linux_host true 1) other_linux_host [archive]
  /\ outcome (av_scan other_linux_host [archive]
                (mkShell false true false 42 ["left by the first call"]))
     = outcome (av_scan (linux_host true 1) [archive] (fresh [])).
Proof.
  assert (H : same_scan_conditions (linux_host true 1) other_linux_host
                [archive])
    by (repeat split; reflexivity).
  split; [exact H |].
  exact (proj1 (exit_status_depends_only_on_scan_conditions
                  (linux_host true 1) other_linux_host [archive] H)
               (fresh [])
               (mkShell false true false 42 ["left by the first call"])).
Defined.

(** C10. A line on the error stream does not mean failure: on a host whose
    identifier is Linux or Darwin and where clamscan is not on the search
    path, the wrapper appends the line "[av_scan] clamscan not found –
    skipping scan", which starts with the tag "[av_scan]", and still leaves
    with status 0. *)
Theorem skip_diagnostic_with_clean_exit
  (h : host) (p : string) (rest stream : list string) (OS : string) :
  regular_file h p -> host_identifier h OS -> posix_family OS ->
  command_v h "clamscan" = false ->
  exists line,
    invoke h (p :: rest) stream
    = (0, ((stream ++ stderr (uname_s h)) ++ [line])%list)
    /\ line = "[av_scan] clamscan not found – skipping scan"
    /\ String.prefix "[av_scan]" line = true.
Proof.
  intros [Hne Hfile] [Hu HOS] Hfam Hcmd.
  apply is_posix_spec in Hfam. rewrite <- HOS in Hfam.
  eexists. split; [| split; reflexivity].
  exact (invoke_posix_no_scanner h p rest stream Hne Hfile Hu Hfam Hcmd).
Qed.

Lemma skip_diagnostic_with_clean_exit_witness :
  regular_file (linux_host false 0) archive
  /\ host_identifier (linux_host false 0) "Linux"
  /\ exists line,
       invoke (linux_host false 0) [archive] [] = (0, [line])
       /\ line = "[av_scan] clamscan not found – skipping scan"
       /\ String.prefix "[av_scan]" line = true.
Proof.
  assert (Hf : regular_file (linux_host false 0) archive)
    by (split; [discriminate | reflexivity]).
  assert (Hi : host_identifier (linux_host false 0) "Linux")
    by (split; reflexivity).
  split; [exact Hf |]. split; [exact Hi |].
  exact (skip_diagnostic_with_clean_exit (linux_host false 0) archive [] []
           "Linux" Hf Hi (or_introl eq_refl) eq_refl).
Defined.

(** * Further properties of the wrapper *)

(** The children of the script print nothing on the error stream and leave
    by themselves, so that bash has nothing to report about them. *)
Definition quiet_children (h : host) : Prop :=
  stderr (uname_s h) = []
  /\ (forall path, stderr (clamscan h path) = []
                   /\ report (clamscan h path) = [])
  /\ (forall cmd, stderr (powershell_exe h cmd) = []
                  /\ report (powershell_exe h cmd) = []).

(** A text without line break: written by [echo], it is one line. *)
Fixpoint single_line (t : string) : bool :=
  match t with
  | EmptyString => true
  | String c rest =>
      negb (Ascii.eqb c (Ascii.ascii_of_nat 10)) && single_line rest
  end.

Lemma single_line_app (a b : string) :
  single_line (a ++ b) = single_line a && single_line b.
Proof.
  induction a as [| c a IH]; [reflexivity |].
  cbn [String.append single_line]. rewrite IH. apply andb_assoc.
Qed.

(** X1. The wrapper leaves with status 0, which is what makes the launcher keep
    the file, in exactly two situations: on a Linux or Darwin host when
    clamscan is missing or leaves with 0, and on a Windows-family host when
    the PowerShell launch leaves with 0; in both the argument names a regular
    file and [uname -s] succeeded. *)
Theorem clean_exit_iff (h : host) (args : list string) :
  exit_code h args = 0 <->
  exists p rest,
    args = p :: rest /\ regular_file h p /\ status (uname_s h) = 0
    /\ ((posix_family (stdout (uname_s h))
         /\ (command_v h "clamscan" = false \/ status (clamscan h p) = 0))
        \/ (windows_family (stdout (uname_s h))
            /\ status (powershell_exe h (start_mpscan p)) = 0)).
Proof.
  unfold exit_code. split.
  - destruct args as [| p rest]; [discriminate |].
    destruct (invalid_or_regular h p) as [Hbad | [Hne Hfile]].
    { rewrite (invoke_invalid_path h p rest _ Hbad). discriminate. }
    destruct (Z.eq_dec (status (uname_s h)) 0) as [Hu | Hu].
    2: { rewrite (invoke_uname_fails h p rest _ Hne Hfile Hu). cbn.
         intros H. now elim Hu. }
    intros Hexit. exists p, rest.
    split; [reflexivity |]. split; [now split |]. split; [exact Hu |].
    destruct (is_posix (stdout (uname_s h))) eqn:Hos.
    { left. split; [now apply is_posix_spec |].
      destruct (command_v h "clamscan") eqn:Hcmd; [right | now left].
      now rewrite (invoke_posix_scanner h p rest _ Hne Hfile Hu Hos Hcmd)
        in Hexit. }
    destruct (is_windows (stdout (uname_s h))) eqn:Hwin.
    + right. split; [now apply is_windows_spec |].
      now rewrite (invoke_windows h p rest _ Hne Hfile Hu Hos Hwin) in Hexit.
    + rewrite (invoke_unsupported h p rest _ Hne Hfile Hu Hos Hwin) in Hexit.
      discriminate.
  - intros (p & rest & -> & [Hne Hfile] & Hu & [[Hos Hscan] | [Hwin Hps]]).
    + apply is_posix_spec in Hos.
      destruct (command_v h "clamscan") eqn:Hcmd.
      * rewrite (invoke_posix_scanner h p rest _ Hne Hfile Hu Hos Hcmd). cbn.
        now destruct Hscan.
      * now rewrite (invoke_posix_no_scanner h p rest _ Hne Hfile Hu Hos Hcmd).
    + apply is_windows_spec in Hwin.
      now rewrite (invoke_windows h p rest _ Hne Hfile Hu
                     (windows_not_posix _ Hwin) Hwin).
Qed.

Lemma clean_exit_iff_witness :
  exit_code (linux_host true 0) [archive] = 0
  /\ exists p rest, [archive] = p :: rest /\ regular_file (linux_host true 0) p.
Proof.
  assert (H0 : exit_code (linux_host true 0) [archive] = 0) by reflexivity.
  split; [exact H0 |].
  destruct (proj1 (clean_exit_iff (linux_host true 0) [archive]) H0)
    as (p & rest & Hargs & Hf & _).
  exists p, rest. split; [exact Hargs | exact Hf].
Defined.

(** X2. When [uname -s] itself fails, the wrapper leaves with the status of
    uname right after the validation: no scanner is consulted, no fallback
    applies, and the wrapper adds no line of its own. *)
Theorem uname_failure_ends_script
  (h : host) (p : string) (rest stream : list string) :
  regular_file h p -> status (uname_s h) <> 0 ->
  invoke h (p :: rest) stream
  = (status (uname_s h), (stream ++ stderr (uname_s h))%list).
Proof.
  intros [Hne Hfile] Hu. exact (invoke_uname_fails h p rest stream Hne Hfile Hu).
Qed.

(** A host whose uname is broken (status 1, one line of complaint). *)
Definition broken_uname_host : host :=
  mkHost only_archive (mkProc 1 "" ["uname: cannot get system name"] [])
         (fun _ => true) (fun _ => quiet 0) (fun _ => quiet 0)
         (fun _ => false).

Lemma uname_failure_ends_script_witness :
  regular_file broken_uname_host archive
  /\ status (uname_s broken_uname_host) <> 0
  /\ invoke broken_uname_host [archive] []
     = (1, ["uname: cannot get system name"]).
Proof.
  assert (Hf : regular_file broken_uname_host archive)
    by (split; [discriminate | reflexivity]).
  assert (Hu : status (uname_s broken_uname_host) <> 0) by discriminate.
  split; [exact Hf |]. split; [exact Hu |].
  exact (uname_failure_ends_script broken_uname_host archive [] [] Hf Hu).
Defined.

(** X3. On a Linux or Darwin host with clamscan on the search path, the exit
    status of the wrapper is the exit status of the scanner, whatever it is,
    and the error stream receives what uname and the scanner printed, then
    what bash reports when a signal ended the scanner, and nothing from the
    wrapper. *)
Theorem posix_exit_is_scanner_status
  (h : host) (p : string) (rest stream : list string) :
  regular_file h p -> status (uname_s h) = 0 ->
  posix_family (stdout (uname_s h)) ->
  command_v h "clamscan" = true ->
  invoke h (p :: rest) stream
  = (status (clamscan h p),
     (((stream ++ stderr (uname_s h)) ++ stderr (clamscan h p))
      ++ report (clamscan h p))%list).
Proof.
  intros [Hne Hfile] Hu Hfam Hcmd. apply is_posix_spec in Hfam.
  exact (invoke_posix_scanner h p rest stream Hne Hfile Hu Hfam Hcmd).
Qed.

(** A Linux machine whose scanner is killed while it scans: it had printed
    one line, and bash reports the kill. *)
Definition killed_scanner_host : host :=
  mkHost only_archive (mkProc 0 "Linux" [] []) (fun _ => true)
         (fun _ => mkProc 137 "" ["LibClamAV Warning: out of memory"]
                          ["Killed"])
         (fun _ => quiet 127) (fun _ => false).

Lemma posix_exit_is_scanner_status_witness :
  regular_file killed_scanner_host archive
  /\ invoke killed_scanner_host [archive] []
     = (137, ["LibClamAV Warning: out of memory"; "Killed"]).
Proof.
  assert (Hf : regular_file killed_scanner_host archive)
    by (split; [discriminate | reflexivity]).
  split; [exact Hf |].
  exact (posix_exit_is_scanner_status killed_scanner_host archive [] []
           Hf eq_refl (or_introl eq_refl) eq_refl).
Defined.

(** X4. On a Windows-family host the exit status of the wrapper is the exit
    status of the PowerShell launch, and the error stream receives what
    uname and PowerShell printed, then what bash reports when a signal ended
    the launch, and nothing from the wrapper. *)
Theorem windows_exit_is_launch_status
  (h : host) (p : string) (rest stream : list string) :
  regular_file h p -> status (uname_s h) = 0 ->
  windows_family (stdout (uname_s h)) ->
  invoke h (p :: rest) stream
  = (status (powershell_exe h (start_mpscan p)),
     (((stream ++ stderr (uname_s h))
       ++ stderr (powershell_exe h (start_mpscan p)))
      ++ report (powershell_exe h (start_mpscan p)))%list).
Proof.
  intros [Hne Hfile] Hu Hfam. apply is_windows_spec in Hfam.
  exact (invoke_windows h p rest stream Hne Hfile Hu
           (windows_not_posix _ Hfam) Hfam).
Qed.

(** An MSYS shell where the PowerShell launch dies of a segmentation
    fault, which bash reports. *)
Definition crashed_launch_host : host :=
  mkHost only_archive (mkProc 0 "MSYS_NT-10.0-19045" [] []) (fun _ => false)
         (fun _ => quiet 127)
         (fun _ => mkProc 139 "" [] ["Segmentation fault"])
         (fun _ => false).

Lemma windows_exit_is_launch_status_witness :
  regular_file crashed_launch_host archive
  /\ invoke crashed_launch_host [archive] [] = (139, ["Segmentation fault"]).
Proof.
  assert (Hf : regular_file crashed_launch_host archive)
    by (split; [discriminate | reflexivity]).
  split; [exact Hf |].
  refine (windows_exit_is_launch_status crashed_launch_host archive [] []
            Hf eq_refl _).
  exists "_NT-10.0-19045". right. right. reflexivity.
Defined.

(** X5. When the argument and the answer of uname hold no line break, and the
    children print nothing and leave by themselves, one invocation appends
    at most one line to the error stream, and that line starts with the tag
    of the wrapper. *)
Theorem own_diagnostics_are_tagged
  (h : host) (p : string) (rest stream : list string) :
  quiet_children h ->
  single_line p = true ->
  single_line (stdout (uname_s h)) = true ->
  exists own,
    snd (invoke h (p :: rest) stream) = (stream ++ own)%list
    /\ (length own <= 1)%nat
    /\ Forall (fun line => String.prefix "[av_scan] " line = true
                           /\ single_line line = true) own.
Proof.
  intros (Hqu & Hqc & Hqp) Hp Hos1.
  assert (Htag : forall tail,
             String.prefix "[av_scan] " ("[av_scan] " ++ tail) = true)
    by (intros tail; apply prefix_app).
  destruct (invalid_or_regular h p) as [Hbad | [Hne Hfile]].
  { rewrite (invoke_invalid_path h p rest _ Hbad). eexists.
    split; [reflexivity |]. split; [cbn; lia |].
    constructor; [| constructor]. split.
    - exact (Htag ("invalid path: " ++ p)).
    - change ("[av_scan] invalid path: " ++ p)
        with (("[av_scan] invalid path: " ++ "") ++ p).
      now rewrite single_line_app, Hp. }
  destruct (Z.eq_dec (status (uname_s h)) 0) as [Hu | Hu].
  2: { rewrite (invoke_uname_fails h p rest _ Hne Hfile Hu), Hqu. exists [].
       split; [reflexivity |]. split; [cbn; lia | constructor]. }
  destruct (is_posix (stdout (uname_s h))) eqn:Hos.
  { destruct (command_v h "clamscan") eqn:Hcmd.
    - rewrite (invoke_posix_scanner h p rest _ Hne Hfile Hu Hos Hcmd), Hqu.
      destruct (Hqc p) as [-> ->].
      exists []. cbn. rewrite !app_nil_r.
      split; [reflexivity |]. split; [lia | constructor].
    - rewrite (invoke_posix_no_scanner h p rest _ Hne Hfile Hu Hos Hcmd), Hqu.
      eexists. cbn. rewrite app_nil_r. split; [reflexivity |].
      split; [cbn; lia |].
      constructor; [split; reflexivity | constructor]. }
  destruct (is_windows (stdout (uname_s h))) eqn:Hwin.
  - rewrite (invoke_windows h p rest _ Hne Hfile Hu Hos Hwin), Hqu.
    destruct (Hqp (start_mpscan p)) as [-> ->].
    exists []. cbn. rewrite !app_nil_r.
    split; [reflexivity |]. split; [lia | constructor].
  - rewrite (invoke_unsupported h p rest _ Hne Hfile Hu Hos Hwin), Hqu.
    eexists. cbn [snd]. rewrite app_nil_r. split; [reflexivity |].
    split; [cbn; lia |]. constructor; [| constructor]. split.
    + exact (Htag ("unsupported OS: " ++ stdout (uname_s h))).
    + change ("[av_scan] unsupported OS: " ++ stdout (uname_s h))
        with (("[av_scan] unsupported OS: " ++ "") ++ stdout (uname_s h)).
      now rewrite single_line_app, Hos1.
Qed.

Lemma own_diagnostics_are_tagged_witness :
  quiet_children freebsd_host
  /\ single_line archive = true
  /\ exists own,
       snd (invoke freebsd_host [archive] []) = own
       /\ (length own <= 1)%nat
       /\ Forall (fun line => String.prefix "[av_scan] " line = true
                              /\ single_line line = true) own.
Proof.
  assert (Hq : quiet_children freebsd_host)
    by (split; [reflexivity | split; intros ?; split; reflexivity]).
  split; [exact Hq |]. split; [reflexivity |].
  exact (own_diagnostics_are_tagged freebsd_host archive [] [] Hq
           eq_refl eq_refl).
Defined.

(** * Class lists and lists of elements, as the page scripts use them *)

Module Dom.

(** [classList.contains(c)] *)
Definition has_class (c : string) (l : list string) : bool :=
  existsb (String.eqb c) l.

(** [classList.add(c)] *)
Definition add_class (c : string) (l : list string) : list string :=
  if has_class c l then l else (l ++ [c])%list.

(** [classList.remove(c)] *)
Definition remove_class (c : string) (l : list string) : list string :=
  filter (fun x => negb (String.eqb c x)) l.

(** Apply [f] to the element at position [i], if there is one. *)
Fixpoint on_nth {A : Type} (f : A -> A) (i : nat) (l : list A) {struct l}
  : list A :=
  match l with
  | [] => []
  | x :: l' =>
      match i with
      | O => f x :: l'
      | S i' => x :: on_nth f i' l'
      end
  end.

Arguments has_class c l : simpl never.
Arguments add_class c l : simpl never.
Arguments remove_class c l : simpl never.

Lemma has_class_in (c : string) (l : list string) :
  has_class c l = true <-> In c l.
Proof.
  unfold has_class. rewrite existsb_exists. split.
  - intros (x & Hin & Heq). apply String.eqb_eq in Heq. now subst x.
  - intros Hin. exists c. split; [exact Hin | apply String.eqb_refl].
Qed.

Lemma has_add_class (c : string) (l : list string) :
  has_class c (add_class c l) = true.
Proof.
  unfold add_class. destruct (has_class c l) eqn:E; [exact E |].
  apply has_class_in, in_or_app. right. now left.
Qed.

Lemma has_remove_class (c : string) (l : list string) :
  has_class c (remove_class c l) = false.
Proof.
  destruct (has_class c (remove_class c l)) eqn:E; [| reflexivity].
  apply has_class_in in E. unfold remove_class in E.
  apply filter_In in E. destruct E as [_ E].
  now rewrite String.eqb_refl in E.
Qed.

Lemma has_class_add_other (k c : string) (l : list string) :
  k <> c -> has_class k (add_class c l) = has_class k l.
Proof.
  intros Hne. unfold add_class. destruct (has_class c l); [reflexivity |].
  unfold has_class. rewrite existsb_app. cbn.
  apply String.eqb_neq in Hne. rewrite Hne. now rewrite !orb_false_r.
Qed.

Lemma has_class_remove_other (k c : string) (l : list string) :
  k <> c -> has_class k (remove_class c l) = has_class k l.
Proof.
  intros Hne. unfold has_class, remove_class.
  induction l as [| x l IH]; [reflexivity |]. cbn.
  destruct (String.eqb c x) eqn:Hcx; cbn.
  - apply String.eqb_eq in Hcx. subst x.
    apply String.eqb_neq in Hne. now rewrite Hne.
  - now rewrite IH.
Qed.

Lemma nth_error_on_nth {A : Type} (f : A -> A) (i j : nat) (l : list A) :
  nth_error (on_nth f i l) j
  = if Nat.eqb j i then option_map f (nth_error l j) else nth_error l j.
Proof.
  revert i j. induction l as [| x l IH]; intros i j.
  - cbn. destruct (Nat.eqb j i); now destruct j.
  - destruct i as [| i]; destruct j as [| j]; cbn; try reflexivity.
    apply IH.
Qed.

Lemma length_on_nth {A : Type} (f : A -> A) (i : nat) (l : list A) :
  length (on_nth f i l) = length l.
Proof.
  revert i. induction l as [| x l IH]; intros [| i]; cbn; auto.
Qed.

End Dom.

(** * The navigation header [app/static/js/header.js] *)

Module Header.

(** What reading a property of [navMap] can give: the string of an own
    entry, a member inherited from [Object.prototype] (a function or an
    object, kept as the text it converts to), or [undefined]. *)
Inductive value : Type :=
| Str (s : string)
| Inherited (repr : string)
| Undefined.

Definition truthy (v : value) : bool :=
  match v with
  | Str s => negb (String.eqb s "")
  | Inherited _ => true
  | Undefined => false
  end.

Definition to_string (v : value) : string :=
  match v with
  | Str s => s
  | Inherited repr => repr
  | Undefined => "undefined"
  end.

(** Mapping button id to target URL. *)
Definition navMap : list (string * string) :=
  [ ("home", "/"); ("servers", "/servers"); ("avatar", "/avatar");
    ("settings", "/settings"); ("adventure", "/adventure");
    ("quit", "quit") ].

Fixpoint own (k : string) (m : list (string * string)) : option string :=
  match m with
  | [] => None
  | (k', v) :: m' => if String.eqb k k' then Some v else own k m'
  end.

(** A navigation button: its [data-act] attribute, if any, and its class
    list. *)
Record button : Type := mkButton {
  act : option string;
  classList : list string
}.


Section Page.

(** The members of [Object.prototype] by name, as the text they convert to. *)
Variable object_prototype : string -> option string.

(** Whether [window.pywebview?.api?.quit] is there. *)
Variable has_pywebview_quit : bool.

(** The property key an action stands for: a missing [data-act] reads as
    [undefined], which as a key is the word "undefined". *)
Definition key (a : option string) : string :=
  match a with
  | Some k => k
  | None => "undefined"
  end.

(** [navMap[act]] *)
Definition lookup (a : option string) : value :=
  match own (key a) navMap with
  | Some url => Str url
  | None =>
      match object_prototype (key a) with
      | Some repr => Inherited repr
      | None => Undefined
      end
  end.



(** The body of the [forEach] over the buttons, as far as the class list
    goes. *)
Definition mark (currentPath : string) (btn : button) : button :=
  let route := lookup (act btn) in
  if truthy route && String.prefix (to_string route) currentPath
  then mkButton (act btn) (Dom.add_class "active" (classList btn))
  else btn.

Definition init (currentPath : string) (buttons : list button)
  : list button :=
  map (mark currentPath) buttons.

Lemma act_mark (currentPath : string) (btn : button) :
  act (mark currentPath btn) = act btn.
Proof.
  unfold mark. now destruct (truthy _ && _).
Qed.

(** X6. A pathname starts with a slash, and so it starts with the route of the
    home button: on every page the home button comes out marked active,
    whatever other button is marked with it. *)
Theorem home_button_always_active
  (currentPath : string) (buttons : list button) (b : button) :
  String.prefix "/" currentPath = true ->
  In b (init currentPath buttons) ->
  act b = Some "home" ->
  In "active" (classList b).
Proof.
  intros Hpath Hin Hact. unfold init in Hin. apply in_map_iff in Hin.
  destruct Hin as (b0 & <- & _). rewrite act_mark in Hact.
  unfold mark. rewrite Hact. cbn. rewrite Hpath. cbn.
  apply Dom.has_class_in, Dom.has_add_class.
Qed.

Lemma slash_path_not_quit (currentPath : string) :
  String.prefix "/" currentPath = true ->
  String.prefix "quit" currentPath = false.
Proof.
  destruct currentPath as [| c rest]; [discriminate |].
  cbn [String.prefix].
  destruct (ascii_dec "/" c) as [<- | _]; [intros _ | discriminate].
  reflexivity.
Qed.

(** X7. The quit button is never marked active, and neither is a button whose
    [data-act] is missing or names nothing in [navMap] or in
    [Object.prototype]: the loop leaves them as they are. *)
Theorem quit_and_unknown_buttons_stay_unmarked
  (currentPath : string) (btn : button) :
  String.prefix "/" currentPath = true ->
  act btn = Some "quit"
  \/ (own (key (act btn)) navMap = None
      /\ object_prototype (key (act btn)) = None) ->
  mark currentPath btn = btn.
Proof.
  intros Hpath [Hq | [Hown Hproto]]; unfold mark, lookup.
  - rewrite Hq. cbn. now rewrite (slash_path_not_quit _ Hpath).
  - now rewrite Hown, Hproto.
Qed.


End Page.

(** A browser whose [Object.prototype] is reduced to its constructor. *)
Definition small_prototype (k : string) : option string :=
  if String.eqb k "constructor"
  then Some "function Object() { [native code] }"
  else None.

Lemma home_button_always_active_witness :
  String.prefix "/" "/servers" = true
  /\ In (mkButton (Some "home") ["nav-btn"; "active"])
        (init small_prototype "/servers"
           [mkButton (Some "servers") ["nav-btn"];
            mkButton (Some "home") ["nav-btn"]])
  /\ In "active" (classList (mkButton (Some "home") ["nav-btn"; "active"])).
Proof.
  assert (Hin : In (mkButton (Some "home") ["nav-btn"; "active"])
                  (init small_prototype "/servers"
                     [mkButton (Some "servers") ["nav-btn"];
                      mkButton (Some "home") ["nav-btn"]]))
    by (right; left; reflexivity).
  split; [reflexivity |]. split; [exact Hin |].
  exact (home_button_always_active small_prototype "/servers" _ _
           eq_refl Hin eq_refl).
Defined.

Lemma quit_and_unknown_buttons_stay_unmarked_witness :
  String.prefix "/" "/quit" = true
  /\ mark small_prototype "/quit" (mkButton (Some "quit") ["nav-btn"])
     = mkButton (Some "quit") ["nav-btn"]
  /\ mark small_prototype "/quit" (mkButton None ["nav-btn"])
     = mkButton None ["nav-btn"].
Proof.
  split; [reflexivity |]. split.
  - exact (quit_and_unknown_buttons_stay_unmarked small_prototype "/quit"
             (mkButton (Some "quit") ["nav-btn"]) eq_refl
             (or_introl eq_refl)).
  - exact (quit_and_unknown_buttons_stay_unmarked small_prototype "/quit"
             (mkButton None ["nav-btn"]) eq_refl
             (or_intror (conj eq_refl eq_refl))).
Defined.


End Header.

(** * The avatar gallery (gallery script of the avatar page) *)

Module Gallery.

Import Dom.

Record item : Type := mkItem { id : Z; img : string }.

(** Dummy data of the script: only the legs are filled in. *)
Definition ITEMS : list (string * list item) :=
  [ ("legs", [ mkItem 1 "/static/img/pants_1.png";
               mkItem 2 "/static/img/pants_2.png";
               mkItem 3 "/static/img/pants_3.png" ]) ].

Definition COLORS : list string :=
  [ "#202020"; "#ffffff"; "#ffce00"; "#ff8243"; "#c84848"; "#59b0ff";
    "#7acb59"; "#9c59ff"; "#ff59b0"; "#ff7f7f"; "#32c8c8"; "#ff641f" ].

Fixpoint own {A : Type} (k : string) (m : list (string * A)) : option A :=
  match m with
  | [] => None
  | (k', v) :: m' => if String.eqb k k' then Some v else own k m'
  end.

(** A tile of the gallery: its class list, its background image and what its
    click handler closed over. *)
Record tile : Type := mkTile {
  tile_classes : list string;
  backgroundImage : string;
  tile_part : string;
  tile_id : Z
}.

(** A dot of the colour bar. *)
Record dot : Type := mkDot {
  dot_classes : list string;
  background : string;
  dot_color : string
}.

(** What a property of [selected] holds. *)
Inductive choice : Type :=
| Null
| ItemId (n : Z)
| Colour (c : string).

(** The variables of the script and the parts of the page it writes. A tile
    or a dot is referred to by its position in its container. *)
Record state : Type := mkState {
  currentPart : option string;
  partTitle : string;
  gallery : list tile;
  colorBar : list dot;
  selected : string -> option choice
}.

Inductive outcome : Type := Done | TypeError.

(** [selected = { legs:null, color:null }] *)
Definition selected0 (k : string) : option choice :=
  if String.eqb k "legs" then Some Null
  else if String.eqb k "color" then Some Null
  else None.

(** [selected[k] = v] *)
Definition set_prop (k : string) (v : choice) (m : string -> option choice)
  : string -> option choice :=
  fun k' => if String.eqb k' k then Some v else m k'.

Definition unselect_tile (t : tile) : tile :=
  mkTile (remove_class "selected" (tile_classes t)) (backgroundImage t)
         (tile_part t) (tile_id t).

Definition select_tile (t : tile) : tile :=
  mkTile (add_class "selected" (tile_classes t)) (backgroundImage t)
         (tile_part t) (tile_id t).

Definition unselect_dot (d : dot) : dot :=
  mkDot (remove_class "selected" (dot_classes d)) (background d) (dot_color d).

Definition select_dot (d : dot) : dot :=
  mkDot (add_class "selected" (dot_classes d)) (background d) (dot_color d).

Definition selectItem (part : string) (id : Z) (node : nat) (st : state)
  : state :=
  mkState (currentPart st) (partTitle st)
          (on_nth select_tile node (map unselect_tile (gallery st)))
          (colorBar st)
          (set_prop part (ItemId id) (selected st)).

Definition selectColor (col : string) (node : nat) (st : state) : state :=
  mkState (currentPart st) (partTitle st) (gallery st)
          (on_nth select_dot node (map unselect_dot (colorBar st)))
          (set_prop "color" (Colour col) (selected st)).

Section Page.

(** [String.prototype.toUpperCase] *)
Variable toUpperCase : string -> string.

(** [part.charAt(0).toUpperCase() + part.slice(1)] *)
Definition title_of (part : string) : string :=
  match part with
  | EmptyString => toUpperCase ""
  | String c rest => toUpperCase (String c "") ++ rest
  end.

(** The [div] built for one item. *)
Definition tile_of (part : string) (it : item) : tile :=
  mkTile ["item"] ("url(" ++ img it ++ ")") part (id it).

(** [loadPart(part)]; [part] is [None] when the tab has no [data-part]. What
    was written before a [TypeError] stays written. *)
Definition loadPart (part : option string) (st : state) : state * outcome :=
  match part with
  | None =>
      (mkState None (partTitle st) (gallery st) (colorBar st) (selected st),
       TypeError)
  | Some p =>
      match own p ITEMS with
      | None =>
          (mkState part (title_of p) [] (colorBar st) (selected st),
           TypeError)
      | Some items =>
          (mkState part (title_of p) (map (tile_of p) items) (colorBar st)
                   (selected st),
           Done)
      end
  end.

(** X9. Whatever the gallery looked like, after [selectItem] the tile handed to
    it is the only one carrying the class [selected]. *)
Theorem selectItem_single_selection
  (part : string) (id : Z) (node : nat) (st : state) (j : nat) (t : tile) :
  nth_error (gallery (selectItem part id node st)) j = Some t ->
  has_class "selected" (tile_classes t) = Nat.eqb j node.
Proof.
  cbn. rewrite nth_error_on_nth, nth_error_map.
  destruct (nth_error (gallery st) j) as [t0 |]; cbn.
  - destruct (Nat.eqb j node); cbn; intros [= <-]; cbn.
    + apply has_add_class.
    + apply has_remove_class.
  - now destruct (Nat.eqb j node).
Qed.

(** X10. The same for the colour bar. *)
Theorem selectColor_single_selection
  (col : string) (node : nat) (st : state) (j : nat) (d : dot) :
  nth_error (colorBar (selectColor col node st)) j = Some d ->
  has_class "selected" (dot_classes d) = Nat.eqb j node.
Proof.
  cbn. rewrite nth_error_on_nth, nth_error_map.
  destruct (nth_error (colorBar st) j) as [d0 |]; cbn.
  - destruct (Nat.eqb j node); cbn; intros [= <-]; cbn.
    + apply has_add_class.
    + apply has_remove_class.
  - now destruct (Nat.eqb j node).
Qed.

(** X11. Only the legs can be loaded: for any other part [loadPart] ends in a
    [TypeError] after it has switched the current part, rewritten the title
    and emptied the gallery. *)
Theorem loadPart_unknown_part (part : string) (st : state) :
  part <> "legs" ->
  loadPart (Some part) st
  = (mkState (Some part) (title_of part) [] (colorBar st) (selected st),
     TypeError).
Proof.
  intros Hne. unfold loadPart. cbn.
  apply String.eqb_neq in Hne. now rewrite Hne.
Qed.

(** X12. Loading a part again forgets the highlight but not the choice: after a
    tile was selected and its part reloaded, [selected] still holds the id
    while no tile of the rebuilt gallery carries the class [selected]. *)
Theorem reload_keeps_choice_drops_highlight
  (part : string) (id : Z) (node : nat) (st : state) (items : list item) :
  own part ITEMS = Some items ->
  let st' := fst (loadPart (Some part) (selectItem part id node st)) in
  selected st' part = Some (ItemId id)
  /\ length (gallery st') = length items
  /\ Forall (fun t => has_class "selected" (tile_classes t) = false)
            (gallery st').
Proof.
  intros Hown. unfold loadPart. rewrite Hown. cbn.
  unfold set_prop. rewrite String.eqb_refl.
  split; [reflexivity |]. split; [apply length_map |].
  apply Forall_forall. intros t Hin. apply in_map_iff in Hin.
  now destruct Hin as (it & <- & _).
Qed.

(** X13. Choosing a tile and choosing a colour do not interfere: in either order
    they give the same page and the same choices, as long as the part is not
    itself called "color". *)
Theorem selectItem_selectColor_commute
  (part col : string) (id : Z) (tile_node dot_node : nat) (st : state) :
  part <> "color" ->
  let a := selectColor col dot_node (selectItem part id tile_node st) in
  let b := selectItem part id tile_node (selectColor col dot_node st) in
  gallery a = gallery b /\ colorBar a = colorBar b
  /\ currentPart a = currentPart b /\ partTitle a = partTitle b
  /\ forall k, selected a k = selected b k.
Proof.
  intros Hne. cbn. repeat split. intros k. unfold set_prop.
  destruct (String.eqb k "color") eqn:Hc; [| reflexivity].
  destruct (String.eqb k part) eqn:Hp; [| reflexivity].
  apply String.eqb_eq in Hc, Hp. subst. now elim Hne.
Qed.

End Page.

(** ** A concrete page *)

(** Upper case for unaccented Latin letters. *)
Definition upper_char (c : ascii) : ascii :=
  let n := Ascii.nat_of_ascii c in
  if (Nat.leb 97 n && Nat.leb n 122)%bool
  then Ascii.ascii_of_nat (n - 32) else c.

Fixpoint upper (s : string) : string :=
  match s with
  | EmptyString => EmptyString
  | String c rest => String (upper_char c) (upper rest)
  end.

(** The colour bar as the script builds it when it is loaded. *)
Definition color_dots : list dot :=
  map (fun c => mkDot ["color-dot"] c c) COLORS.

(** The page once the script has run: the dots are there and the legs are
    loaded. *)
Definition loaded_page : state :=
  fst (loadPart upper (Some "legs")
         (mkState (Some "legs") "" [] color_dots selected0)).

Lemma selectItem_single_selection_witness :
  nth_error (gallery (selectItem "legs" 2 1 loaded_page)) 1
  = Some (mkTile ["item"; "selected"] "url(/static/img/pants_2.png)"
                 "legs" 2)
  /\ has_class "selected" ["item"; "selected"] = Nat.eqb 1 1.
Proof.
  assert (H : nth_error (gallery (selectItem "legs" 2 1 loaded_page)) 1
              = Some (mkTile ["item"; "selected"]
                             "url(/static/img/pants_2.png)" "legs" 2))
    by reflexivity.
  split; [exact H |].
  exact (selectItem_single_selection "legs" 2 1 loaded_page 1 _ H).
Defined.

Lemma selectColor_single_selection_witness :
  nth_error (colorBar (selectColor "#ffffff" 1 loaded_page)) 0
  = Some (mkDot ["color-dot"] "#202020" "#202020")
  /\ has_class "selected" ["color-dot"] = Nat.eqb 0 1.
Proof.
  assert (H : nth_error (colorBar (selectColor "#ffffff" 1 loaded_page)) 0
              = Some (mkDot ["color-dot"] "#202020" "#202020"))
    by reflexivity.
  split; [exact H |].
  exact (selectColor_single_selection "#ffffff" 1 loaded_page 0 _ H).
Defined.

Lemma loadPart_unknown_part_witness :
  "head" <> "legs"
  /\ loadPart upper (Some "head") loaded_page
     = (mkState (Some "head") "Head" [] color_dots selected0, TypeError).
Proof.
  assert (H : "head" <> "legs") by discriminate.
  split; [exact H |].
  exact (loadPart_unknown_part upper "head" loaded_page H).
Defined.

Lemma reload_keeps_choice_drops_highlight_witness :
  own "legs" ITEMS
  = Some [ mkItem 1 "/static/img/pants_1.png";
           mkItem 2 "/static/img/pants_2.png";
           mkItem 3 "/static/img/pants_3.png" ]
  /\ selected (fst (loadPart upper (Some "legs")
                      (selectItem "legs" 2 1 loaded_page))) "legs"
     = Some (ItemId 2)
  /\ Forall (fun t => has_class "selected" (tile_classes t) = false)
            (gallery (fst (loadPart upper (Some "legs")
                             (selectItem "legs" 2 1 loaded_page)))).
Proof.
  split; [reflexivity |].
  pose proof (reload_keeps_choice_drops_highlight upper "legs" 2 1
                loaded_page _ eq_refl) as (H1 & _ & H3).
  split; [exact H1 | exact H3].
Defined.

Lemma selectItem_selectColor_commute_witness :
  "legs" <> "color"
  /\ gallery (selectColor "#ffce00" 2 (selectItem "legs" 3 2 loaded_page))
     = gallery (selectItem "legs" 3 2 (selectColor "#ffce00" 2 loaded_page)).
Proof.
  assert (H : "legs" <> "color") by discriminate.
  split; [exact H |].
  exact (proj1 (selectItem_selectColor_commute "legs" "#ffce00" 3 2 2
                  loaded_page H)).
Defined.

End Gallery.

(** * JavaScript values, as far as the page scripts meet them *)

Module Js.

Set Warnings "-register-all".

(** What [JSON.parse] (and so [res.json()]) can produce. Numbers stay
    abstract. *)
Inductive json (number : Type) : Type :=
| JNull
| JBool (b : bool)
| JNum (n : number)
| JStr (s : string)
| JArr (items : list (json number))
| JObj (fields : list (string * json number)).
Arguments JNull {number}.
Arguments JBool {number} b.
Arguments JNum {number} n.
Arguments JStr {number} s.
Arguments JArr {number} items.
Arguments JObj {number} fields.

(** An exception: an [Error] made by the script with its message, or one
    raised by the engine or the browser, named by the operation that
    failed. *)
Inductive exn : Type :=
| Err (message : string)
| Native (operation : string).

Inductive result (A : Type) : Type :=
| Ok (a : A)
| Throw (e : exn).
Arguments Ok {A} a.
Arguments Throw {A} e.

Definition bind {A B : Type} (r : result A) (k : A -> result B) : result B :=
  match r with
  | Ok a => k a
  | Throw e => Throw e
  end.

(** A value in the script: [undefined], a parsed value, or a constant of the
    script, kept as the text it converts to. *)
Inductive jsval (number : Type) : Type :=
| Undefined
| J (j : json number)
| Lit (text : string).
Arguments Undefined {number}.
Arguments J {number} j.
Arguments Lit {number} text.

Section Values.

Variable number : Type.

(** [n === 0] for a parsed number. *)
Variable is_zero : number -> bool.

(** Conversion of a number to its text. *)
Variable num_to_string : number -> string.

(** Conversion of an array or an object to its text; it goes through the
    members of the value and can throw. *)
Variable object_to_string : json number -> result string.

(** The own property [k] of a parsed object: with duplicate keys the last
    one wins. *)
Fixpoint own_last (k : string) (fields : list (string * json number))
  : option (json number) :=
  match fields with
  | [] => None
  | (k', v) :: rest =>
      match own_last k rest with
      | Some w => Some w
      | None => if String.eqb k k' then Some v else None
      end
  end.

(** [v.k] for a property name that no prototype provides: reading from
    [null] throws, and only objects have own properties of that name. *)
Definition get (k : string) (v : json number)
  : result (option (json number)) :=
  match v with
  | JNull => Throw (Native ("null." ++ k))
  | JObj fields => Ok (own_last k fields)
  | _ => Ok None
  end.

Definition truthy (v : json number) : bool :=
  match v with
  | JNull => false
  | JBool b => b
  | JNum n => negb (is_zero n)
  | JStr s => negb (String.eqb s "")
  | JArr _ => true
  | JObj _ => true
  end.

(** Conversion to text, as a template literal or [new Error] does it. *)
Definition to_string (v : jsval number) : result string :=
  match v with
  | Undefined => Ok "undefined"
  | Lit text => Ok text
  | J JNull => Ok "null"
  | J (JBool true) => Ok "true"
  | J (JBool false) => Ok "false"
  | J (JNum n) => Ok (num_to_string n)
  | J (JStr s) => Ok s
  | J v => object_to_string v
  end.

(** [v ?? d] *)
Definition nullish (v : option (json number)) (d : jsval number)
  : jsval number :=
  match v with
  | None => d
  | Some JNull => d
  | Some j => J j
  end.

End Values.

(** A plain object with text members, read by property name. *)
Definition object : Type := string -> option string.

Definition empty : object := fun _ => None.

(** [Object.assign(target, source)], read back by property name. *)
Definition assign (target source : object) : object :=
  fun k =>
    match source k with
    | Some v => Some v
    | None => target k
    end.

(** [o[k] = v] *)
Definition set (k v : string) (o : object) : object :=
  fun k' => if String.eqb k' k then Some v else o k'.

End Js.

(** * The global helpers [app/static/js/main.js] *)

Module Api.

Import Js.

(** The namespace object: the token is [null] or a string. *)
Record hyatlas : Type := mkHyatlas { token : option string }.

Definition setToken (tok : string) (h : hyatlas) : hyatlas :=
  mkHyatlas (Some tok).

(** [logout()]: the new namespace state and the location it sets. *)
Definition logout (h : hyatlas) : hyatlas * string :=
  (mkHyatlas None, "/login").

(** The [opts] argument: its [headers] member, if any, and its other
    members. *)
Record options : Type := mkOptions {
  opt_headers : option object;
  opt_others : object
}.

(** What is handed to [fetch]. *)
Record request : Type := mkRequest {
  req_url : string;
  req_others : object;
  req_headers : object
}.

Section Fetch.

Variable number : Type.
Variable is_zero : number -> bool.
Variable num_to_string : number -> string.
Variable object_to_string : json number -> result string.

(** What comes back: [ok], [statusText], and what [res.clone().json()]
    gives. *)
Record response : Type := mkResponse {
  ok : bool;
  statusText : string;
  body : result (json number)
}.

(** The network. *)
Variable fetch : request -> result response.

Definition build_headers (h : hyatlas) (opts : options) : object :=
  let headers :=
    assign (set "Content-Type" "application/json" empty)
           (match opt_headers opts with
            | Some o => o
            | None => empty
            end) in
  match token h with
  | Some t =>
      if String.eqb t "" then headers
      else set "Authorization" ("Bearer " ++ t) headers
  | None => headers
  end.

Definition build_request (h : hyatlas) (url : string) (opts : options)
  : request :=
  mkRequest url (opt_others opts) (build_headers h opts).

(** [j.detail || detail] inside its [try]: any failure keeps the status
    text. *)
Definition error_detail (res : response) : jsval number :=
  match body res with
  | Ok j =>
      match get number "detail" j with
      | Ok (Some d) => if truthy number is_zero d then J d
                       else Lit (statusText res)
      | _ => Lit (statusText res)
      end
  | Throw _ => Lit (statusText res)
  end.

Definition apiFetch (h : hyatlas) (url : string) (opts : options)
  : result response :=
  bind (fetch (build_request h url opts)) (fun res =>
  if negb (ok res)
  then bind (to_string number num_to_string object_to_string
               (error_detail res))
            (fun message => Throw (Err message))
  else Ok res).

(** [opts.headers || {}] *)
Definition caller_headers (opts : options) : object :=
  match opt_headers opts with
  | Some o => o
  | None => empty
  end.

(** X14. Once a non-empty token is stored, every request carries it as a
    bearer token, whether the caller passed no headers at all or headers
    with an [Authorization] of its own; [Content-Type] is the caller's, or
    JSON when the caller names none, and every other header is exactly the
    caller's. *)
Theorem bearer_token_overrides_caller
  (h : hyatlas) (tok url : string) (opts : options) :
  tok <> "" ->
  let headers := req_headers (build_request (setToken tok h) url opts) in
  let caller := caller_headers opts in
  headers "Authorization" = Some ("Bearer " ++ tok)
  /\ (forall k v, k <> "Authorization" -> caller k = Some v ->
                  headers k = Some v)
  /\ (caller "Content-Type" = None ->
      headers "Content-Type" = Some "application/json")
  /\ (forall k, k <> "Authorization" -> k <> "Content-Type" ->
                headers k = caller k).
Proof.
  intros Htok. cbn. unfold build_headers, caller_headers.
  cbn [token setToken].
  apply String.eqb_neq in Htok. rewrite Htok.
  unfold set, assign, empty. split; [reflexivity |]. split; [| split].
  - intros k v Hk Hv. apply String.eqb_neq in Hk. now rewrite Hk, Hv.
  - intros Hct. cbn. now rewrite Hct.
  - intros k Hk1 Hk2. apply String.eqb_neq in Hk1, Hk2. rewrite Hk1, Hk2.
    now destruct (match opt_headers opts with Some o => o | None => _ end k).
Qed.

(** X15. After [logout] the wrapper adds no [Authorization] header any more: what
    a request carries under that name is what the caller passed, if
    anything. *)
Theorem logout_stops_bearer
  (h : hyatlas) (tok url : string) (opts : options) :
  let h' := fst (logout (setToken tok h)) in
  req_headers (build_request h' url opts) "Authorization"
  = match opt_headers opts with
    | Some caller => caller "Authorization"
    | None => None
    end.
Proof.
  cbn. unfold build_headers. cbn. unfold assign, set, empty. cbn.
  now destruct (opt_headers opts) as [caller |];
    [destruct (caller "Authorization") |].
Qed.

(** X16. A response that is not ok is never returned: [apiFetch] throws. The
    message is the status text when the body is not JSON, is [null], has no
    [detail] or has a falsy one, and it is the [detail] itself when that is
    a non-empty string. *)
Theorem non_ok_response_throws
  (h : hyatlas) (url : string) (opts : options) (res : response) :
  fetch (build_request h url opts) = Ok res ->
  ok res = false ->
  (exists e, apiFetch h url opts = Throw e)
  /\ ((forall j, body res = Ok j ->
         j = JNull \/ get number "detail" j = Ok None
         \/ exists d, get number "detail" j = Ok (Some d)
                      /\ truthy number is_zero d = false) ->
      apiFetch h url opts = Throw (Err (statusText res)))
  /\ (forall fields d,
        body res = Ok (JObj fields) ->
        own_last number "detail" fields = Some (JStr d) -> d <> "" ->
        apiFetch h url opts = Throw (Err d)).
Proof.
  intros Hfetch Hok. unfold apiFetch. rewrite Hfetch. cbn. rewrite Hok. cbn.
  split; [| split].
  - destruct (to_string _ _ _ _) as [m | e]; cbn; eauto.
  - intros Hbody. unfold error_detail.
    destruct (body res) as [j | e]; [| reflexivity].
    destruct (Hbody j eq_refl) as [-> | [Hget | (d & Hget & Hd)]];
      [reflexivity | now rewrite Hget | now rewrite Hget, Hd].
  - intros fields d Hbody Hown Hd. unfold error_detail.
    rewrite Hbody. cbn. rewrite Hown. cbn.
    apply String.eqb_neq in Hd. now rewrite Hd.
Qed.

End Fetch.

(** ** A concrete backend *)

(** A backend that turns every request down with a JSON error body. *)
Definition forbidden : response Z :=
  mkResponse Z false "Forbidden"
             (Ok (JObj [("detail", JStr "Token expired")])).

Definition refusing_backend (r : request) : result (response Z) :=
  Ok forbidden.

Definition no_options : options := mkOptions None empty.

Definition basic_auth : object :=
  set "Authorization" "Basic dXNlcjpwdw==" empty.

Lemma bearer_token_overrides_caller_witness :
  "abc" <> ""
  /\ req_headers
       (build_request (setToken "abc" (mkHyatlas None)) "/api/me"
          no_options) "Authorization"
     = Some "Bearer abc"
  /\ req_headers
       (build_request (setToken "abc" (mkHyatlas None)) "/api/me"
          no_options) "Content-Type"
     = Some "application/json"
  /\ req_headers
       (build_request (setToken "abc" (mkHyatlas None)) "/api/me"
          (mkOptions (Some basic_auth) empty)) "Authorization"
     = Some "Bearer abc".
Proof.
  assert (H : "abc" <> "") by discriminate.
  split; [exact H |]. split; [| split].
  - exact (proj1 (bearer_token_overrides_caller (mkHyatlas None) "abc"
                    "/api/me" no_options H)).
  - exact (proj1 (proj2 (proj2 (bearer_token_overrides_caller
                                  (mkHyatlas None) "abc" "/api/me"
                                  no_options H)))
                 eq_refl).
  - exact (proj1 (bearer_token_overrides_caller (mkHyatlas None) "abc"
                    "/api/me" (mkOptions (Some basic_auth) empty) H)).
Defined.

Lemma non_ok_response_throws_witness :
  ok Z forbidden = false
  /\ apiFetch Z (Z.eqb 0) (fun _ => "0") (fun _ => Ok "[object Object]")
       refusing_backend (mkHyatlas None) "/api/me" no_options
     = Throw (Err "Token expired").
Proof.
  split; [reflexivity |].
  refine (proj2 (proj2 (non_ok_response_throws Z (Z.eqb 0) (fun _ => "0")
                          (fun _ => Ok "[object Object]") refusing_backend
                          (mkHyatlas None) "/api/me" no_options forbidden
                          eq_refl eq_refl))
                [("detail", JStr "Token expired")] "Token expired"
                eq_refl eq_refl _).
  discriminate.
Defined.

End Api.

(** * The server list (server-list script of the servers page) *)

From Stdlib Require Import DecimalString.

Module ServerList.

Import Js.
Import Dom.

(** The double quote and the line break of the HTML templates. *)
Definition dq : string := String (Ascii.ascii_of_nat 34) "".
Definition nl : string := String (Ascii.ascii_of_nat 10) "".

(** The text of a small integer inside a template. *)
Definition decimal (z : Z) : string := NilZero.string_of_int (Z.to_int z).

(** [s.includes(q)] *)
Fixpoint includes (q s : string) : bool :=
  String.prefix q s
  || match s with
     | EmptyString => false
     | String _ s' => includes q s'
     end.

(** [Array.prototype.filter] with a callback that can throw. *)
Fixpoint filter_r {A : Type} (f : A -> result bool) (l : list A)
  : result (list A) :=
  match l with
  | [] => Ok []
  | x :: rest =>
      bind (f x) (fun keep =>
      bind (filter_r f rest) (fun rest' =>
      Ok (if keep then x :: rest' else rest')))
  end.

(** [Array.prototype.map] with a callback that can throw. *)
Fixpoint map_r {A B : Type} (f : A -> result B) (l : list A)
  : result (list B) :=
  match l with
  | [] => Ok []
  | x :: rest =>
      bind (f x) (fun y =>
      bind (map_r f rest) (fun rest' =>
      Ok (y :: rest')))
  end.

(** A channel button: its class list and its [data-val]. *)
Record chan_btn : Type := mkChanBtn {
  chan_classes : list string;
  chan_val : option string
}.

Definition deactivate (b : chan_btn) : chan_btn :=
  mkChanBtn (remove_class "active" (chan_classes b)) (chan_val b).

Definition activate (b : chan_btn) : chan_btn :=
  mkChanBtn (add_class "active" (chan_classes b)) (chan_val b).

Section Page.

Variable number : Type.
Variable num_to_string : number -> string.
Variable object_to_string : json number -> result string.

(** [v < k] for a parsed value and a constant of the script. *)
Variable less_than : json number -> Z -> result bool.

Variable JSON_stringify : json number -> string.
Variable btoa : string -> result string.
Variable trim : string -> string.
Variable toLowerCase : string -> string.
Variable encodeURIComponent : string -> result string.

(** The text the engine gives the exception of a failed operation. *)
Variable native_message : string -> string.

(** What [fetch] resolves to: [ok] and what [res.json()] gives. *)
Record response : Type := mkResponse {
  ok : bool;
  json_body : result (json number)
}.

(** The network. *)
Variable fetch : string -> result response.

(** The variables of the script and the parts of the page it reads and
    writes. *)
Record page : Type := mkPage {
  currentChan : option string;
  allServers : json number;
  listEl : string;            (* innerHTML of #srv-list *)
  msgEl : string;             (* textContent of #srv-msg *)
  inputEl : string;           (* value of #srv-search *)
  chanBtns : list chan_btn    (* the .chan-btn elements of .chan-group *)
}.

Definition text (v : jsval number) : result string :=
  to_string number num_to_string object_to_string v.

(** [createPingBars(ms)]; [None] stands for the constant 999, which is what
    [ms] is when the ping is missing. *)
Definition createPingBars (ms : option (json number)) : result string :=
  bind (match ms with
        | None => Ok "#e74c3c"
        | Some v =>
            bind (less_than v 80) (fun lt80 =>
            if lt80 then Ok "#2ecc71"
            else bind (less_than v 150) (fun lt150 =>
                 Ok (if lt150 then "#f1c40f" else "#e74c3c")))
        end) (fun c =>
  Ok (String.concat ""
        (map (fun i => String.concat ""
      ["<span style="; dq; "display:block;width:5px;margin:1px;height:";
      decimal (i * 4); "px;background:"; c; ";"; dq; "></span>" ])
           [1; 2; 3]))).

Definition makeCard (s : json number) : result string :=
  bind (get number "online" s) (fun online =>
  bind (get number "max" s) (fun max =>
  bind (get number "ping" s) (fun ping =>
  bind (get number "name" s) (fun name =>
  bind (text (match name with Some j => J j | None => Undefined end))
       (fun name_text =>
  bind (get number "description" s) (fun description =>
  bind (text (nullish number description (Lit "No description…")))
       (fun description_text =>
  bind (text (nullish number online (Lit "0"))) (fun on_text =>
  bind (text (nullish number max (Lit "–"))) (fun max_text =>
  bind (btoa (JSON_stringify s)) (fun data_srv =>
  bind (createPingBars (match ping with
                        | Some JNull => None
                        | other => other
                        end)) (fun bars =>
  Ok (String.concat ""
     [ nl; "    <article class="; dq; "srv-card"; dq; ">"; nl;
       "      <div class="; dq; "thumb"; dq; "></div>"; nl;
       "      <div class="; dq; "srv-content"; dq; ">"; nl;
       "        <h3 class="; dq; "srv-title"; dq; ">"; name_text; "</h3>";
       nl; "        <p>"; description_text; "</p>"; nl; "      </div>"; nl;
       "      <div class="; dq; "srv-actions"; dq; ">"; nl;
       "        <div class="; dq; "player-box"; dq; "><i class="; dq;
       "fa fa-user"; dq; "></i><span class="; dq; "pl-numbers"; dq; ">";
       on_text; "/"; max_text; "</span></div>"; nl; "        <button class=";
       dq; "play-btn join-btn"; dq; " data-srv="; dq; data_srv; dq;
       " title="; dq; "Play"; dq; "><i class="; dq; "fa fa-play"; dq;
       "></i></button>"; nl; "        <div class="; dq; "ping-bars"; dq; ">";
       bars; "</div>"; nl; "      </div>"; nl; "    </article>" ])))))))))))).

(** The callback of the filter: [!q || s.name.toLowerCase().includes(q)]. *)
Definition matches (q : string) (s : json number) : result bool :=
  if String.eqb q "" then Ok true
  else
    bind (get number "name" s) (fun name =>
    match name with
    | Some (JStr n) => Ok (includes q (toLowerCase n))
    | _ => Throw (Native "name.toLowerCase")
    end).

(** [allServers.filter(...)] *)
Definition subset (q : string) (servers : json number)
  : result (list (json number)) :=
  match servers with
  | JArr l => filter_r (matches q) l
  | _ => Throw (Native "allServers.filter")
  end.

(** [applyFilter()]: the page is written only after the list is filtered
    and every card is built, so a throw leaves it as it was. *)
Definition applyFilter (st : page) : result page :=
  let q := toLowerCase (trim (inputEl st)) in
  bind (subset q (allServers st)) (fun shown =>
  bind (map_r makeCard shown) (fun cards =>
  Ok (mkPage (currentChan st) (allServers st)
             (String.concat "" cards)
             (match shown with
              | [] => "No server match."
              | _ :: _ => ""
              end)
             (inputEl st) (chanBtns st)))).

(** The first lines of the [try] block: the URL, the request, the status
    test and the parsing. *)
Definition request_url (st : page) : result string :=
  match currentChan st with
  | None => Ok "/api/servers"
  | Some c =>
      if String.eqb c "" then Ok "/api/servers"
      else bind (encodeURIComponent c) (fun encoded =>
           Ok ("/api/servers?channel=" ++ encoded))
  end.

Definition request (st : page) : result (json number) :=
  bind (request_url st) (fun url =>
  bind (fetch url) (fun res =>
  if negb (ok res) then Throw (Err "Failed to fetch list")
  else json_body res)).

(** [err.message] *)
Definition message (e : exn) : string :=
  match e with
  | Err m => m
  | Native operation => native_message operation
  end.

Definition with_message (m : string) (st : page) : page :=
  mkPage (currentChan st) (allServers st) (listEl st) m (inputEl st)
         (chanBtns st).

(** [fetchServers()], run to its end without another handler in between. *)
Definition fetchServers (st : page) : page :=
  let loading :=
    mkPage (currentChan st) (allServers st) "" "Loading …" (inputEl st)
           (chanBtns st) in
  match request loading with
  | Throw e => with_message (message e) loading
  | Ok data =>
      let loaded :=
        mkPage (currentChan st) data "" "Loading …" (inputEl st)
               (chanBtns st) in
      match applyFilter loaded with
      | Ok shown => shown
      | Throw e => with_message (message e) loaded
      end
  end.

(** A click on the channel button at position [i]; a click elsewhere in the
    group does nothing. *)
Definition chan_click (i : nat) (st : page) : page :=
  match nth_error (chanBtns st) i with
  | None => st
  | Some b =>
      fetchServers
        (mkPage (chan_val b) (allServers st) (listEl st) (msgEl st)
                (inputEl st)
                (on_nth activate i (map deactivate (chanBtns st))))
  end.

(** ** Facts about the list operations *)

Lemma includes_unfold (q s : string) :
  includes q s
  = String.prefix q s
    || match s with
       | EmptyString => false
       | String _ s' => includes q s'
       end.
Proof. now destruct s. Qed.

Lemma includes_spec (q s : string) :
  includes q s = true <-> exists pre post, s = pre ++ q ++ post.
Proof.
  split.
  - induction s as [| c s IH]; rewrite includes_unfold;
      intros H; apply orb_true_iff in H; destruct H as [H | H].
    + apply prefix_iff in H. destruct H as [post H]. now exists "", post.
    + discriminate.
    + apply prefix_iff in H. destruct H as [post H]. now exists "", post.
    + destruct (IH H) as (pre & post & ->). now exists (String c pre), post.
  - intros (pre & post & ->). induction pre as [| c pre IH].
    + rewrite includes_unfold. cbn [String.append].
      now rewrite prefix_app.
    + rewrite includes_unfold. cbn [String.append]. rewrite IH.
      apply orb_true_r.
Qed.

Lemma filter_r_throws {A : Type} (f : A -> result bool) (l : list A) (x : A)
  (e0 : exn) :
  In x l -> f x = Throw e0 -> exists e, filter_r f l = Throw e.
Proof.
  intros Hin Hx. induction l as [| y l IH]; [contradiction |]. cbn.
  destruct Hin as [-> | Hin].
  - rewrite Hx. cbn. eauto.
  - destruct (f y) as [keep | e]; cbn; [| eauto].
    destruct (IH Hin) as [e ->]. cbn. eauto.
Qed.

Lemma map_r_throws {A B : Type} (f : A -> result B) (l : list A) (x : A)
  (e0 : exn) :
  In x l -> f x = Throw e0 -> exists e, map_r f l = Throw e.
Proof.
  intros Hin Hx. induction l as [| y l IH]; [contradiction |]. cbn.
  destruct Hin as [-> | Hin].
  - rewrite Hx. cbn. eauto.
  - destruct (f y) as [b | e]; cbn; [| eauto].
    destruct (IH Hin) as [e ->]. cbn. eauto.
Qed.

Lemma filter_r_in {A : Type} (f : A -> result bool) (l shown : list A) :
  filter_r f l = Ok shown ->
  forall x, In x shown <-> In x l /\ f x = Ok true.
Proof.
  revert shown. induction l as [| y l IH]; intros shown; cbn.
  - intros [= <-] x. cbn. tauto.
  - destruct (f y) as [keep | e] eqn:Hy; cbn; [| discriminate].
    destruct (filter_r f l) as [rest |]; cbn; [| discriminate].
    intros [= <-] x. specialize (IH rest eq_refl x).
    destruct keep; cbn; rewrite ?IH; split.
    + intros [<- | [H1 H2]]; [now split; [left |] | now split; [right |]].
    + intros [[<- | H1] H2]; [now left | now right].
    + intros [H1 H2]. now split; [right |].
    + intros [[<- | H1] H2]; [congruence | now split].
Qed.

Lemma filter_r_all {A : Type} (f : A -> result bool) (l : list A) :
  (forall x, In x l -> f x = Ok true) -> filter_r f l = Ok l.
Proof.
  induction l as [| y l IH]; intros Hall; [reflexivity |]. cbn.
  rewrite (Hall y (or_introl eq_refl)). cbn.
  rewrite IH; [reflexivity |]. intros x Hx. apply Hall. now right.
Qed.

Lemma makeCard_null : exists e, makeCard JNull = Throw e.
Proof. cbn. eauto. Qed.

Lemma makeCard_unencodable (s : json number) (e0 : exn) :
  btoa (JSON_stringify s) = Throw e0 -> exists e, makeCard s = Throw e.
Proof.
  intros Hb. unfold makeCard.
  repeat match goal with
         | |- exists e, bind ?r _ = Throw e =>
             first [ rewrite Hb; cbn [bind]
                   | destruct r; cbn [bind]; [| eauto] ]
         end.
  now exists e0.
Qed.

Lemma fetchServers_frame (st : page) :
  currentChan (fetchServers st) = currentChan st
  /\ inputEl (fetchServers st) = inputEl st
  /\ chanBtns (fetchServers st) = chanBtns st.
Proof.
  unfold fetchServers. destruct (request _) as [data | e]; [| now cbn].
  unfold applyFilter.
  destruct (subset _ _) as [shown | e]; cbn; [| now idtac].
  destruct (map_r makeCard shown) as [cards | e]; now cbn.
Qed.

(** ** Properties of the search box and of the refresh *)

(** X17. With an empty search box (after trimming) no entry is dropped and none is
    asked for its name: the list shows one card per entry of the array, in
    order, nameless entries included, and the message is empty unless the
    array is. *)
Theorem empty_query_shows_every_entry
  (st : page) (l : list (json number)) (cards : list string) :
  toLowerCase (trim (inputEl st)) = "" ->
  allServers st = JArr l ->
  map_r makeCard l = Ok cards ->
  applyFilter st
  = Ok (mkPage (currentChan st) (allServers st) (String.concat "" cards)
               (match l with
                | [] => "No server match."
                | _ :: _ => ""
                end)
               (inputEl st) (chanBtns st)).
Proof.
  intros Hq Hall Hcards. unfold applyFilter. rewrite Hq, Hall. cbn.
  rewrite filter_r_all by reflexivity. cbn. now rewrite Hcards.
Qed.

(** X18. With a non-empty query, one entry whose [name] is not a string makes the
    search throw, so that nothing is written to the page. *)
Theorem nameless_entry_breaks_search
  (st : page) (l : list (json number)) (s : json number) :
  toLowerCase (trim (inputEl st)) <> "" ->
  allServers st = JArr l ->
  In s l ->
  (forall n, get number "name" s <> Ok (Some (JStr n))) ->
  exists e, applyFilter st = Throw e.
Proof.
  intros Hq Hall Hin Hname. unfold applyFilter. rewrite Hall. cbn.
  assert (Hs : exists e0, matches (toLowerCase (trim (inputEl st))) s
                          = Throw e0).
  { unfold matches. apply String.eqb_neq in Hq. rewrite Hq.
    destruct (get number "name" s) as [[[ | | | n | |] |] | e] eqn:Hg;
      cbn; eauto.
    now elim (Hname n). }
  destruct Hs as [e0 Hs].
  destruct (filter_r_throws _ l s e0 Hin Hs) as [e ->]. cbn. eauto.
Qed.

(** X19. The list is rendered all or nothing: with an empty query, a single
    entry that is [null], or whose JSON text [btoa] refuses, makes
    [applyFilter] throw, and no card at all is written. *)
Theorem one_bad_entry_blanks_the_list
  (st : page) (l : list (json number)) (s : json number) :
  toLowerCase (trim (inputEl st)) = "" ->
  allServers st = JArr l ->
  In s l ->
  s = JNull \/ (exists e0, btoa (JSON_stringify s) = Throw e0) ->
  exists e, applyFilter st = Throw e.
Proof.
  intros Hq Hall Hin Hbad. unfold applyFilter. rewrite Hq, Hall. cbn.
  rewrite filter_r_all by reflexivity. cbn.
  assert (Hs : exists e0, makeCard s = Throw e0).
  { destruct Hbad as [-> | [e0 Hb]].
    - apply makeCard_null.
    - exact (makeCard_unencodable s e0 Hb). }
  destruct Hs as [e0 Hs].
  destruct (map_r_throws makeCard l s e0 Hin Hs) as [e ->]. cbn. eauto.
Qed.

(** X20. What a non-empty query shows, when the search goes through: exactly the
    entries of the array whose name is a string that, in lower case,
    contains the query. *)
Theorem search_shows_matching_names
  (q : string) (l shown : list (json number)) (s : json number) :
  q <> "" ->
  subset q (JArr l) = Ok shown ->
  (In s shown <->
   In s l /\ exists n pre post,
              get number "name" s = Ok (Some (JStr n))
              /\ toLowerCase n = pre ++ q ++ post).
Proof.
  intros Hq Hsub. cbn in Hsub. rewrite (filter_r_in _ l shown Hsub s).
  unfold matches. apply String.eqb_neq in Hq. rewrite Hq.
  split; intros [Hin H]; (split; [exact Hin |]).
  - destruct (get number "name" s) as [[[ | | | n | |] |] | e];
      cbn in H; try discriminate.
    injection H as H. apply includes_spec in H.
    destruct H as (pre & post & H). now exists n, pre, post.
  - destruct H as (n & pre & post & -> & H). cbn.
    f_equal. apply includes_spec. now exists pre, post.
Qed.

(** X21. A refresh that fails before a new list arrives (the channel cannot be
    encoded, the network fails, the status is not ok, the body does not
    parse) empties the list and shows the message of the failure, but keeps
    the old array: the next keystroke in the search box gives exactly what
    it would have given before the refresh, old servers included. *)
Theorem failed_refresh_keeps_old_list (st : page) (e : exn) :
  request st = Throw e ->
  allServers (fetchServers st) = allServers st
  /\ listEl (fetchServers st) = ""
  /\ msgEl (fetchServers st) = message e
  /\ applyFilter (fetchServers st) = applyFilter st.
Proof.
  intros Hreq. unfold fetchServers.
  change (request (mkPage (currentChan st) (allServers st) ""
                          "Loading …" (inputEl st) (chanBtns st)))
    with (request st).
  rewrite Hreq. repeat split.
Qed.

(** X22. An answer that parses but is not an array is stored all the same: the
    page shows the engine's message for the failed call, and from then on
    the search box throws at every keystroke. *)
Theorem non_list_answer_is_stored (st : page) (data : json number) :
  request st = Ok data ->
  (forall l, data <> JArr l) ->
  allServers (fetchServers st) = data
  /\ listEl (fetchServers st) = ""
  /\ msgEl (fetchServers st) = native_message "allServers.filter"
  /\ applyFilter (fetchServers st) = Throw (Native "allServers.filter").
Proof.
  intros Hreq Hdata. unfold fetchServers.
  change (request (mkPage (currentChan st) (allServers st) ""
                          "Loading …" (inputEl st) (chanBtns st)))
    with (request st).
  rewrite Hreq. unfold applyFilter. cbn.
  destruct data as [ | b | n | s | l | fields];
    try (now elim (Hdata l)); cbn; repeat split.
Qed.

(** X23. After a click on a channel button, the group still has all its
    buttons with their [data-val] and their other classes, the clicked one
    carries the class [active] and no other does, and its [data-val] is the
    current channel, whatever the refresh that follows makes of the list. *)
Theorem chan_click_single_active
  (i : nat) (st : page) (b : chan_btn) :
  nth_error (chanBtns st) i = Some b ->
  currentChan (chan_click i st) = chan_val b
  /\ (forall j c,
        nth_error (chanBtns (chan_click i st)) j = Some c ->
        has_class "active" (chan_classes c) = Nat.eqb j i)
  /\ length (chanBtns (chan_click i st)) = length (chanBtns st)
  /\ (forall j c0,
        nth_error (chanBtns st) j = Some c0 ->
        exists c,
          nth_error (chanBtns (chan_click i st)) j = Some c
          /\ chan_val c = chan_val c0
          /\ has_class "active" (chan_classes c) = Nat.eqb j i
          /\ forall k, k <> "active" ->
                       has_class k (chan_classes c)
                       = has_class k (chan_classes c0)).
Proof.
  intros Hb. unfold chan_click. rewrite Hb.
  destruct (fetchServers_frame
              (mkPage (chan_val b) (allServers st) (listEl st) (msgEl st)
                      (inputEl st)
                      (on_nth activate i (map deactivate (chanBtns st)))))
    as (Hchan & _ & Hbtns).
  rewrite Hchan, Hbtns. cbn. split; [reflexivity |]. split; [| split].
  - intros j c. rewrite nth_error_on_nth, nth_error_map.
    destruct (nth_error (chanBtns st) j) as [c0 |]; cbn.
    + destruct (Nat.eqb j i); cbn; intros [= <-]; cbn.
      * apply has_add_class.
      * apply has_remove_class.
    + now destruct (Nat.eqb j i).
  - now rewrite length_on_nth, length_map.
  - intros j c0 Hj. rewrite nth_error_on_nth, nth_error_map, Hj. cbn.
    destruct (Nat.eqb j i); cbn; eexists; (split; [reflexivity |]); cbn;
      (split; [reflexivity |]).
    + split; [apply has_add_class |]. intros k Hk.
      now rewrite has_class_add_other, has_class_remove_other.
    + split; [apply has_remove_class |]. intros k Hk.
      now rewrite has_class_remove_other.
Qed.

End Page.

(** ** A concrete browser and backend *)

Definition entry (name : string) : json Z := JObj [("name", JStr name)].

(** Comparison of a parsed number with a constant; anything else compares
    as not-a-number. *)
Definition number_less_than (v : json Z) (k : Z) : result bool :=
  match v with
  | JNum n => Ok (n <? k)
  | _ => Ok false
  end.

(** A [btoa] that refuses the empty text and passes everything else on. *)
Definition picky_btoa (t : string) : result string :=
  if String.eqb t "" then Throw (Native "btoa") else Ok t.

Definition stringify_name (v : json Z) : string :=
  match v with
  | JObj [(_, JStr n)] => n
  | _ => ""
  end.

Definition keep (t : string) : string := t.

Definition no_message (operation : string) : string := operation.

Definition encode (t : string) : result string := Ok t.

Definition object_text (v : json Z) : result string := Ok "[object Object]".

(** The script in this browser, against a given network. *)
Definition demo_applyFilter : page Z -> result (page Z) :=
  applyFilter Z decimal object_text number_less_than stringify_name
              picky_btoa keep keep.

Definition demo_fetchServers (net : string -> result (response Z))
  : page Z -> page Z :=
  fetchServers Z decimal object_text number_less_than stringify_name
               picky_btoa keep keep encode no_message net.

Definition demo_request (net : string -> result (response Z))
  : page Z -> result (json Z) :=
  request Z encode net.

Definition demo_page (servers : list (json Z)) (query : string) : page Z :=
  mkPage Z (Some "") (JArr servers) "" "" query
         [ mkChanBtn ["chan-btn"; "active"] (Some "");
           mkChanBtn ["chan-btn"] (Some "beta") ].

Definition backend_down (url : string) : result (response Z) :=
  Ok (mkResponse Z false (Ok JNull)).

Definition backend_error_object (url : string) : result (response Z) :=
  Ok (mkResponse Z true (Ok (JObj [("detail", JStr "maintenance")]))).

Lemma empty_query_shows_every_entry_witness :
  exists cards,
    map_r (makeCard Z decimal object_text number_less_than stringify_name
                    picky_btoa)
          [entry "Alpha"; entry "Beta"] = Ok cards
    /\ demo_applyFilter (demo_page [entry "Alpha"; entry "Beta"] "")
       = Ok (mkPage Z (Some "") (JArr [entry "Alpha"; entry "Beta"])
                    (String.concat "" cards) ""
                    "" (chanBtns Z (demo_page [] ""))).
Proof.
  eexists. split; [vm_compute; reflexivity |].
  exact (empty_query_shows_every_entry Z decimal object_text
           number_less_than stringify_name picky_btoa keep keep
           (demo_page [entry "Alpha"; entry "Beta"] "")
           [entry "Alpha"; entry "Beta"] _ eq_refl eq_refl eq_refl).
Defined.

Lemma nameless_entry_breaks_search_witness :
  keep (keep "al") <> ""
  /\ exists e,
       demo_applyFilter (demo_page [entry "Alpha"; JObj [("name", JNum 5)]]
                                   "al")
       = Throw e.
Proof.
  assert (Hq : keep (keep "al") <> "") by discriminate.
  split; [exact Hq |].
  refine (nameless_entry_breaks_search Z decimal object_text
            number_less_than stringify_name picky_btoa keep keep
            (demo_page [entry "Alpha"; JObj [("name", JNum 5)]] "al")
            [entry "Alpha"; JObj [("name", JNum 5)]]
            (JObj [("name", JNum 5)]) Hq eq_refl _ _).
  - right. left. reflexivity.
  - intros n H. discriminate H.
Defined.

Lemma one_bad_entry_blanks_the_list_witness :
  In JNull [entry "Alpha"; JNull]
  /\ exists e,
       demo_applyFilter (demo_page [entry "Alpha"; JNull] "") = Throw e.
Proof.
  assert (Hin : In (@JNull Z) [entry "Alpha"; JNull])
    by (right; left; reflexivity).
  split; [exact Hin |].
  exact (one_bad_entry_blanks_the_list Z decimal object_text
           number_less_than stringify_name picky_btoa keep keep
           (demo_page [entry "Alpha"; JNull] "")
           [entry "Alpha"; JNull] JNull eq_refl eq_refl Hin
           (or_introl eq_refl)).
Defined.

Lemma search_shows_matching_names_witness :
  "ph" <> ""
  /\ subset Z keep "ph" (JArr [entry "alpha"; entry "beta"])
     = Ok [entry "alpha"]
  /\ (In (entry "alpha") [entry "alpha"] <->
      In (entry "alpha") [entry "alpha"; entry "beta"]
      /\ exists n pre post,
           get Z "name" (entry "alpha") = Ok (Some (JStr n))
           /\ keep n = pre ++ "ph" ++ post).
Proof.
  assert (Hq : "ph" <> "") by discriminate.
  split; [exact Hq |]. split; [reflexivity |].
  exact (search_shows_matching_names Z keep "ph"
           [entry "alpha"; entry "beta"] [entry "alpha"] (entry "alpha")
           Hq eq_refl).
Defined.

Lemma failed_refresh_keeps_old_list_witness :
  demo_request backend_down (demo_page [entry "Alpha"] "")
  = Throw (Err "Failed to fetch list")
  /\ msgEl Z (demo_fetchServers backend_down (demo_page [entry "Alpha"] ""))
     = "Failed to fetch list"
  /\ demo_applyFilter
       (demo_fetchServers backend_down (demo_page [entry "Alpha"] ""))
     = demo_applyFilter (demo_page [entry "Alpha"] "").
Proof.
  split; [reflexivity |].
  pose proof (failed_refresh_keeps_old_list Z decimal object_text
                number_less_than stringify_name picky_btoa keep keep encode
                no_message backend_down (demo_page [entry "Alpha"] "")
                (Err "Failed to fetch list") eq_refl) as (_ & _ & H3 & H4).
  split; [exact H3 | exact H4].
Defined.

Lemma non_list_answer_is_stored_witness :
  demo_request backend_error_object (demo_page [entry "Alpha"] "")
  = Ok (JObj [("detail", JStr "maintenance")])
  /\ allServers Z (demo_fetchServers backend_error_object
                     (demo_page [entry "Alpha"] ""))
     = JObj [("detail", JStr "maintenance")]
  /\ demo_applyFilter
       (demo_fetchServers backend_error_object (demo_page [entry "Alpha"] ""))
     = Throw (Native "allServers.filter").
Proof.
  split; [reflexivity |].
  assert (Hdata : forall l : list (json Z),
             JObj [("detail", JStr "maintenance")] <> JArr l)
    by (intros l H; discriminate H).
  pose proof (non_list_answer_is_stored Z decimal object_text
                number_less_than stringify_name picky_btoa keep keep encode
                no_message backend_error_object
                (demo_page [entry "Alpha"] "") _ eq_refl Hdata)
    as (H1 & _ & _ & H4).
  split; [exact H1 | exact H4].
Defined.

Definition demo_chan_click (i : nat) : page Z -> page Z :=
  chan_click Z decimal object_text number_less_than stringify_name
             picky_btoa keep keep encode no_message backend_down i.

Lemma chan_click_single_active_witness :
  nth_error (chanBtns Z (demo_page [] "")) 1
  = Some (mkChanBtn ["chan-btn"] (Some "beta"))
  /\ currentChan Z (demo_chan_click 1 (demo_page [] "")) = Some "beta"
  /\ length (chanBtns Z (demo_chan_click 1 (demo_page [] ""))) = 2%nat
  /\ (exists c,
        nth_error (chanBtns Z (demo_chan_click 1 (demo_page [] ""))) 1
        = Some c
        /\ chan_val c = Some "beta"
        /\ has_class "active" (chan_classes c) = true)
  /\ (exists c,
        nth_error (chanBtns Z (demo_chan_click 1 (demo_page [] ""))) 0
        = Some c
        /\ has_class "active" (chan_classes c) = false
        /\ has_class "chan-btn" (chan_classes c) = true).
Proof.
  pose proof (chan_click_single_active Z decimal object_text
                number_less_than stringify_name picky_btoa keep keep
                encode no_message backend_down 1 (demo_page [] "")
                (mkChanBtn ["chan-btn"] (Some "beta")) eq_refl)
    as (H1 & _ & H3 & H4).
  split; [reflexivity |]. split; [exact H1 |]. split; [exact H3 |]. split.
  - destruct (H4 1%nat (mkChanBtn ["chan-btn"] (Some "beta")) eq_refl)
      as (c & Hc & Hval & Hact & _).
    exists c. split; [exact Hc |]. split; [exact Hval | exact Hact].
  - destruct (H4 0%nat (mkChanBtn ["chan-btn"; "active"] (Some ""))
                eq_refl)
      as (c & Hc & _ & Hact & Hother).
    exists c. split; [exact Hc |]. split; [exact Hact |].
    rewrite (Hother "chan-btn"); [reflexivity | discriminate].
Defined.

End ServerList.
